(** * QoS resource ledgers (pkg/api/v1/resource/qos_resource_helpers.go)

    A shallow embedding of the Go helpers that account QoS resource requests,
    over an explicit store.  Go maps are references and the methods take a
    pointer receiver, so the store has three kinds of objects: variables of
    type [QOSResourcesTotal] (what a [*QOSResourcesTotal] points to), map
    objects of type [QOSResourcesTotal] and map objects of type
    [QOSResourceTotal].  Amounts are [int64]: integers with the wrap-around
    written out. *)

From stdpp Require Import gmap strings list fin_maps.
From Stdlib Require Import ZArith Lia.

Local Open Scope Z_scope.

(** ** int64 *)

Definition int64 (z : Z) : Prop := - 2 ^ 63 <= z < 2 ^ 63.

(** The value an [int64] operation stores for the mathematical result [z]. *)
Definition wrap64 (z : Z) : Z := (z + 2 ^ 63) mod 2 ^ 64 - 2 ^ 63.

(** ** The store *)

(** Addresses.  A map value is [nil] or the address of a map object; a
    pointer is [nil] or the address of a variable. *)
Abbreviation addr := positive (only parsing).
Abbreviation mapref := (option positive) (only parsing).
Abbreviation ptr := (option positive) (only parsing).

Record heap : Type := Heap {
  cells : gmap positive (option positive);
  outers : gmap positive (gmap string (option positive));
  inners : gmap positive (gmap string Z)
}.

Definition empty_heap : heap := Heap ∅ ∅ ∅.

(** Computations on the store; [None] is a run-time panic (a write to a nil
    map) or a read through an address that holds no object, which a Go
    program cannot produce. *)
Definition M (A : Type) : Type := heap → option (A * heap).

Definition ret {A} (x : A) : M A := λ h, Some (x, h).

Definition bind {A B} (f : A → M B) (m : M A) : M B :=
  λ h, match m h with Some (x, h') => f x h' | None => None end.

#[global] Instance M_ret : MRet M := @ret.
#[global] Instance M_bind : MBind M := @bind.

(** [for _, x := range l { body x }] over a slice, or over the entries a
    [range] over a map produced. *)
Fixpoint for_each {A} (l : list A) (body : A → M unit) : M unit :=
  match l with
  | [] => ret ()
  | x :: l' => body x ;; for_each l' body
  end.

(** *** Variables *)

(** [*r] *)
Definition deref (c : addr) : M mapref :=
  λ h, match cells h !! c with Some v => Some (v, h) | None => None end.

(** [*r = v] *)
Definition assign (c : addr) (v : mapref) : M unit :=
  λ h, match cells h !! c with
       | Some _ => Some ((), Heap (<[c := v]> (cells h)) (outers h) (inners h))
       | None => None
       end.

(** [var x = v; &x]: a variable whose address is taken. *)
Definition new_var (v : mapref) : M addr :=
  λ h, let c := fresh (dom (cells h)) in
       Some (c, Heap (<[c := v]> (cells h)) (outers h) (inners h)).

(** *** Maps of type QOSResourcesTotal *)

(** [make(QOSResourcesTotal)]; the capacity hint has no observable effect. *)
Definition make_outer : M mapref :=
  λ h, let o := fresh (dom (outers h)) in
       Some (Some o, Heap (cells h) (<[o := ∅]> (outers h)) (inners h)).

(** [t, ok := v[name]]: a nil map reads as an empty one; an absent key
    gives the zero value, here a nil [QOSResourceTotal]. *)
Definition outer_index (v : mapref) (name : string) : M (mapref * bool) :=
  λ h, match v with
       | None => Some ((None, false), h)
       | Some o =>
           match outers h !! o with
           | Some m =>
               match m !! name with
               | Some t => Some ((t, true), h)
               | None => Some ((None, false), h)
               end
           | None => None
           end
       end.

(** [v[name] = t]: panics on a nil map. *)
Definition outer_store (v : mapref) (name : string) (t : mapref) : M unit :=
  λ h, match v with
       | None => None
       | Some o =>
           match outers h !! o with
           | Some m => Some ((), Heap (cells h) (<[o := <[name := t]> m]> (outers h)) (inners h))
           | None => None
           end
       end.

(** The entries [for name, t := range v] visits. *)
Definition outer_range (v : mapref) : M (list (string * mapref)) :=
  λ h, match v with
       | None => Some ([], h)
       | Some o =>
           match outers h !! o with
           | Some m => Some (map_to_list m, h)
           | None => None
           end
       end.

(** *** Maps of type QOSResourceTotal *)

Definition make_inner : M mapref :=
  λ h, let i := fresh (dom (inners h)) in
       Some (Some i, Heap (cells h) (outers h) (<[i := ∅]> (inners h))).

(** [a, ok := t[class]]: the zero value of an absent key is [0]. *)
Definition inner_index (t : mapref) (class : string) : M (Z * bool) :=
  λ h, match t with
       | None => Some ((0, false), h)
       | Some i =>
           match inners h !! i with
           | Some m =>
               match m !! class with
               | Some a => Some ((a, true), h)
               | None => Some ((0, false), h)
               end
           | None => None
           end
       end.

Definition inner_store (t : mapref) (class : string) (a : Z) : M unit :=
  λ h, match t with
       | None => None
       | Some i =>
           match inners h !! i with
           | Some m => Some ((), Heap (cells h) (outers h) (<[i := <[class := a]> m]> (inners h)))
           | None => None
           end
       end.

Definition inner_range (t : mapref) : M (list (string * Z)) :=
  λ h, match t with
       | None => Some ([], h)
       | Some i =>
           match inners h !! i with
           | Some m => Some (map_to_list m, h)
           | None => None
           end
       end.

(** ** The API types the helpers read (k8s.io/api/core/v1) *)

(** Modelled from the spec: the container-level request of the API package,
    which the helpers only read; a (resource, class) pair that stands for
    one unit of demand. *)
Record QOSResourceRequest : Type := Request { req_Name : string; req_Class : string }.

(** Modelled from the spec: the pod-level request, a pair of the same shape. *)
Record PodQOSResourceRequest : Type := PodRequest { preq_Name : string; preq_Class : string }.

(** Modelled from the spec: a class a resource offers, with its capacity
    (an [int64]). *)
Record QOSResourceClassInfo : Type := ClassInfo { cls_Name : string; cls_Capacity : Z }.

(** Modelled from the spec: the capacity description of one resource, its
    name and the list of its classes. *)
Record QOSResourceInfo : Type := Info { info_Name : string; info_Classes : list QOSResourceClassInfo }.

(** Modelled from the spec: a container, of which the helpers read the
    request list [container.Resources.QOSResources]. *)
Record Container : Type := { ctr_QOSResources : list QOSResourceRequest }.

(** Modelled from the spec: a pod, of which the helpers read [pod.Spec]:
    its pod-level requests, its containers and its init containers. *)
Record Pod : Type := {
  pod_QOSResources : list PodQOSResourceRequest;
  pod_Containers : list Container;
  pod_InitContainers : list Container
}.

(** ** The helpers *)

(** [if *r == nil { *r = make(QOSResourcesTotal) }] *)
Definition add_init_total (c : addr) : M unit :=
  v ← deref c;
  match v with
  | None => m ← make_outer; assign c m
  | Some _ => ret ()
  end.

(** [if r[name] == nil { r[name] = make(QOSResourceTotal) }], where [r[name]]
    indexes the map the receiver points to *)
Definition add_init_resource (c : addr) (name : string) : M unit :=
  v ← deref c;
  '(t, _) ← outer_index v name;
  match t with
  | None => n ← make_inner; v ← deref c; outer_store v name n
  | Some _ => ret ()
  end.

(** [r[name][class] = r[name][class] + amount] *)
Definition add_bump (c : addr) (name class : string) (amount : Z) : M unit :=
  v ← deref c;
  '(t, _) ← outer_index v name;
  '(x, _) ← inner_index t class;
  v ← deref c;
  '(t, _) ← outer_index v name;
  inner_store t class (wrap64 (x + amount)).

(** [func (r *QOSResourcesTotal) add(name, class, amount)] *)
Definition add (r : ptr) (name class : string) (amount : Z) : M unit :=
  match r with
  | None => ret ()
  | Some c =>
      add_init_total c ;;
      add_init_resource c name ;;
      add_bump c name class amount
  end.

(** [func (r *QOSResourcesTotal) GetAmount(name, class) (bool, int64)] *)
Definition GetAmount (r : ptr) (name class : string) : M (bool * Z) :=
  match r with
  | None => ret (false, 0)
  | Some c =>
      v ← deref c;
      match v with
      | None => ret (false, 0)
      | Some _ =>
          '(_, ok) ← outer_index v name;
          if negb ok then ret (false, 0)
          else
            v ← deref c;
            '(t, _) ← outer_index v name;
            '(amount, ok) ← inner_index t class;
            if (ok : bool) then ret (true, amount) else ret (false, 0)
      end
  end.

(** [func (r *QOSResourcesTotal) AddPodQOSResources(qrl)] *)
Definition AddPodQOSResources (r : ptr) (qrl : list PodQOSResourceRequest) : M unit :=
  match r with
  | None => ret ()
  | Some _ => for_each qrl (λ qr, add r (preq_Name qr) (preq_Class qr) 1)
  end.

(** [func (r *QOSResourcesTotal) AddContainerQOSResources(qrl)] *)
Definition AddContainerQOSResources (r : ptr) (qrl : list QOSResourceRequest) : M unit :=
  match r with
  | None => ret ()
  | Some _ => for_each qrl (λ qr, add r (req_Name qr) (req_Class qr) 1)
  end.

(** The loop body of [SetMaxContainerQOSResources]:
    [if r[qr.Name] == nil || r[qr.Name][qr.Class] == 0 { r.add(qr.Name, qr.Class, 1) }];
    the second operand of [||] is read only when the first is false. *)
Definition set_max_one (c : addr) (qr : QOSResourceRequest) : M unit :=
  v ← deref c;
  '(t, _) ← outer_index v (req_Name qr);
  match t with
  | None => add (Some c) (req_Name qr) (req_Class qr) 1
  | Some _ =>
      v ← deref c;
      '(t, _) ← outer_index v (req_Name qr);
      '(a, _) ← inner_index t (req_Class qr);
      if a =? 0 then add (Some c) (req_Name qr) (req_Class qr) 1 else ret ()
  end.

(** [func (r *QOSResourcesTotal) SetMaxContainerQOSResources(qrl)] *)
Definition SetMaxContainerQOSResources (r : ptr) (qrl : list QOSResourceRequest) : M unit :=
  match r with
  | None => ret ()
  | Some c => for_each qrl (set_max_one c)
  end.

(** [func (r *QOSResourcesTotal) Sum(r2 *QOSResourcesTotal, add bool)].  A
    [range] visits the entries the map has when the loop is entered, each
    once, in the order of [map_to_list]; the inner map is read when the outer
    loop reaches it. *)
Definition Sum (r r2 : ptr) (add_flag : bool) : M unit :=
  match r, r2 with
  | Some _, Some c2 =>
      v2 ← deref c2;
      es ← outer_range v2;
      for_each es (λ '(resName, resTotal),
        ies ← inner_range resTotal;
        for_each ies (λ '(clsName, clsAmount),
          if add_flag then add r resName clsName clsAmount
          else add r resName clsName (wrap64 (-1 * clsAmount))))
  | _, _ => ret ()
  end.

(** [func (r *QOSResourcesTotal) Clone() *QOSResourcesTotal]; the result is
    the address of the local variable [out]. *)
Definition Clone (r : ptr) : M ptr :=
  match r with
  | None => ret None
  | Some c =>
      v ← deref c;
      out ← make_outer;
      es ← outer_range v;
      for_each es (λ '(k, t),
        classes ← make_inner;
        ies ← inner_range t;
        for_each ies (λ '(cl, amount), inner_store classes cl amount) ;;
        outer_store out k classes) ;;
      p ← new_var out;
      ret (Some p)
  end.

(** [func QOSResourcesTotalFromInfo(in []v1.QOSResourceInfo) QOSResourcesTotal] *)
Definition QOSResourcesTotalFromInfo (infos : list QOSResourceInfo) : M mapref :=
  out ← make_outer;
  for_each infos (λ qr,
    classes ← make_inner;
    for_each (info_Classes qr) (λ cl, inner_store classes (cls_Name cl) (cls_Capacity cl)) ;;
    outer_store out (info_Name qr) classes) ;;
  ret out.

(** [func PodQOSResourceRequests(pod *v1.Pod) (podReqs, containerReqs QOSResourcesTotal)].
    The two named results are variables whose address the method calls
    take; the model returns these addresses, and the caller reads the
    results through them.  [pod] is a pod that exists: the Go function
    dereferences it at once. *)
Definition PodQOSResourceRequests (pod : Pod) : M (addr * addr) :=
  m1 ← make_outer;
  podReqs ← new_var m1;
  m2 ← make_outer;
  containerReqs ← new_var m2;
  AddPodQOSResources (Some podReqs) (pod_QOSResources pod) ;;
  for_each (pod_Containers pod) (λ container,
    AddContainerQOSResources (Some containerReqs) (ctr_QOSResources container)) ;;
  for_each (pod_InitContainers pod) (λ container,
    SetMaxContainerQOSResources (Some containerReqs) (ctr_QOSResources container)) ;;
  ret (podReqs, containerReqs).

(** ** Views and invariants of the store *)

(** The amount stored for (name, class) in the ledger [r] points to, when
    both keys are present. *)
Definition entry (h : heap) (r : ptr) (name class : string) : option Z :=
  c ← r; v ← cells h !! c; o ← v; m ← outers h !! o;
  t ← m !! name; i ← t; im ← inners h !! i; im !! class.

(** The amount stored for [class] in the [QOSResourceTotal] value [t]. *)
Definition inner_entry (h : heap) (t : mapref) (class : string) : option Z :=
  i ← t; im ← inners h !! i; im !! class.

(** What [GetAmount] returns for an entry. *)
Definition found (e : option Z) : bool * Z :=
  match e with Some a => (true, a) | None => (false, 0) end.

(** A pointer a Go program can hold: nil or the address of a variable. *)
Definition valid (h : heap) (r : ptr) : Prop :=
  match r with None => True | Some c => is_Some (cells h !! c) end.

(** Well-formed stores: every reference leads to an object, no map object
    is reachable along two paths (each ledger is an independent value), and
    every amount is an [int64]. *)
Record wf (h : heap) : Prop := {
  wf_cell : ∀ c o, cells h !! c = Some (Some o) → is_Some (outers h !! o);
  wf_outer : ∀ o m k i,
    outers h !! o = Some m → m !! k = Some (Some i) → is_Some (inners h !! i);
  wf_cell_own : ∀ c1 c2 o,
    cells h !! c1 = Some (Some o) → cells h !! c2 = Some (Some o) → c1 = c2;
  wf_outer_own : ∀ o1 o2 m1 m2 k1 k2 i,
    outers h !! o1 = Some m1 → outers h !! o2 = Some m2 →
    m1 !! k1 = Some (Some i) → m2 !! k2 = Some (Some i) → o1 = o2 ∧ k1 = k2;
  wf_amount : ∀ i im k a, inners h !! i = Some im → im !! k = Some a → int64 a
}.

(** The objects of the ledgers other than [c] are the same in [h] and [h']. *)
Definition frame (c : addr) (h h' : heap) : Prop :=
  ∀ c2, c2 ≠ c →
    cells h' !! c2 = cells h !! c2 ∧
    ∀ o, cells h !! c2 = Some (Some o) →
      outers h' !! o = outers h !! o ∧
      ∀ m k i, outers h !! o = Some m → m !! k = Some (Some i) →
        inners h' !! i = inners h !! i.

(** No map of the store holds the [QOSResourceTotal] at [i]. *)
Definition unref (h : heap) (i : addr) : Prop :=
  ∀ o m k, outers h !! o = Some m → m !! k ≠ Some (Some i).

(** The store after a new [QOSResourceTotal] with the given content was
    stored at [i] and put under [k] in the map at [out]. *)
Definition linked (h : heap) (out : addr) (mo : gmap string (option positive))
    (k : string) (i : addr) (content : gmap string Z) : heap :=
  Heap (cells h) (<[out := <[k := Some i]> mo]> (outers h)) (<[i := content]> (inners h)).

(** Every [QOSResourceTotal] of [h] is the same in [h']. *)
Definition keeps_inners (h h' : heap) : Prop :=
  ∀ j, is_Some (inners h !! j) → inners h' !! j = inners h !! j.

(** The entries of a [QOSResourcesTotal] map object with content [mo]. *)
Definition outer_entry (h : heap) (mo : gmap string (option positive))
    (name class : string) : option Z :=
  t ← mo !! name; inner_entry h t class.

(** What every mutation of the ledger at [c] guarantees. *)
Record ext (c : addr) (h h' : heap) : Prop := {
  ext_wf : wf h';
  ext_cells : dom (cells h') = dom (cells h);
  ext_inners : dom (inners h) ⊆ dom (inners h');
  ext_frame : frame c h h';
  ext_keys : ∀ n k, is_Some (entry h (Some c) n k) → is_Some (entry h' (Some c) n k)
}.

(** ** Request lists as the claims read them *)

Definition request_pairs (qrl : list QOSResourceRequest) : list (string * string) :=
  (λ qr, (req_Name qr, req_Class qr)) <$> qrl.

Definition pod_request_pairs (qrl : list PodQOSResourceRequest) : list (string * string) :=
  (λ qr, (preq_Name qr, preq_Class qr)) <$> qrl.

(** The requests of a list of containers, in order. *)
Definition container_pairs (cs : list Container) : list (string * string) :=
  concat ((λ ctr, request_pairs (ctr_QOSResources ctr)) <$> cs).

(** How many times the pair (name, class) occurs in a list of requests. *)
Fixpoint occurrences (name class : string) (l : list (string * string)) : nat :=
  match l with
  | [] => 0
  | p :: l' =>
      (if decide (p = (name, class)) then 1 else 0) + occurrences name class l'
  end.

(** An entry after [cnt] additions of one unit. *)
Definition bump (cnt : nat) (e : option Z) : option Z :=
  match cnt with
  | O => e
  | S _ => Some (wrap64 (default 0 e + Z.of_nat cnt))
  end.

(** An entry after one init-container request for it. *)
Definition floor_one (e : option Z) : option Z :=
  match e with
  | None => Some 1
  | Some a => if a =? 0 then Some 1 else Some a
  end.

(** What [Sum] adds for an amount [a] of the other ledger. *)
Definition signed (add_flag : bool) (a : Z) : Z :=
  if add_flag then a else wrap64 (-1 * a).

(** The last element of a list whose key is [k]: what remains in a map
    after the elements were stored one by one under their keys. *)
Fixpoint last_with {A} (key : A → string) (xs : list A) (k : string) : option A :=
  match xs with
  | [] => None
  | x :: rest =>
      match last_with key rest k with
      | Some y => Some y
      | None => if decide (key x = k) then Some x else None
      end
  end.

(** The capacity a class list advertises for [class]: the last one listed. *)
Definition class_capacity (cls : list QOSResourceClassInfo) (class : string) : option Z :=
  cls_Capacity <$> last_with cls_Name cls class.

(** The class list the built map keeps for [name]: [out[qr.Name] = classes]
    stores a whole counter per list element, so the class list of the last
    element that names the resource is the one that stays. *)
Definition resource_classes (infos : list QOSResourceInfo) (name : string)
    : option (list QOSResourceClassInfo) :=
  info_Classes <$> last_with info_Name infos name.

(** The capacity the built map holds for (name, class): that of the last
    class called [class] in the class list that stays for [name]. *)
Definition advertised (infos : list QOSResourceInfo) (name class : string) : option Z :=
  cls ← resource_classes infos name; class_capacity cls class.

Definition int64_info (qr : QOSResourceInfo) : Prop :=
  Forall (λ cl, int64 (cls_Capacity cl)) (info_Classes qr).

(** ** Sequences of mutations of one ledger *)

Inductive op : Type :=
  | OpAdd (name class : string) (amount : Z)
  | OpAddPod (qrl : list PodQOSResourceRequest)
  | OpAddContainer (qrl : list QOSResourceRequest)
  | OpSetMax (qrl : list QOSResourceRequest)
  | OpSum (r2 : ptr) (add_flag : bool).

Definition run_op (r : ptr) (o : op) : M unit :=
  match o with
  | OpAdd name class amount => add r name class amount
  | OpAddPod qrl => AddPodQOSResources r qrl
  | OpAddContainer qrl => AddContainerQOSResources r qrl
  | OpSetMax qrl => SetMaxContainerQOSResources r qrl
  | OpSum r2 add_flag => Sum r r2 add_flag
  end.

Definition run_ops (r : ptr) (ops : list op) : M unit := for_each ops (run_op r).

(** The pointers an operation is given are pointers of the store. *)
Definition op_valid (h : heap) (o : op) : Prop :=
  match o with
  | OpSum r2 _ => valid h r2
  | _ => True
  end.

(** The value a computation returns, when it does not panic. *)
Definition result {A} (m : M A) (h : heap) : option A := fst <$> m h.

(** ** Sample stores and programs *)

(** One variable, unset: [var l QOSResourcesTotal]. *)
Definition unset_heap : heap := Heap {[1%positive := None]} ∅ ∅.

(** One ledger with the single entry (gpu, fast) of amount [a]. *)
Definition gpu_heap (a : Z) : heap :=
  Heap {[1%positive := Some 1%positive]}
       {[1%positive := {["gpu" := Some 1%positive]}]}
       {[1%positive := {["fast" := a]}]}.

(** Two ledgers, at the variables 1 and 2, with the single entry
    (gpu, fast) of amounts [a] and [b]. *)
Definition pair_heap (a b : Z) : heap :=
  Heap {[1%positive := Some 1%positive; 2%positive := Some 2%positive]}
       {[1%positive := {["gpu" := Some 1%positive]};
         2%positive := {["gpu" := Some 2%positive]}]}
       {[1%positive := {["fast" := a]}; 2%positive := {["fast" := b]}]}.

(** An unset ledger at the variable 1 and, at the variable 2, a ledger with
    the single entry (gpu, fast) of amount [a]. *)
Definition seed_heap (a : Z) : heap :=
  Heap {[1%positive := None; 2%positive := Some 1%positive]}
       {[1%positive := {["gpu" := Some 1%positive]}]}
       {[1%positive := {["fast" := a]}]}.

(** The sample pod with its containers, init containers and requests in
    another order. *)
Definition sample_pod_reordered : Pod := {|
  pod_QOSResources := [PodRequest "gpu" "fast"; PodRequest "gpu" "fast"];
  pod_Containers :=
    [ {| ctr_QOSResources := [Request "gpu" "fast"; Request "gpu" "fast"] |};
      {| ctr_QOSResources := [] |};
      {| ctr_QOSResources := [Request "gpu" "fast"] |} ];
  pod_InitContainers :=
    [ {| ctr_QOSResources := [Request "net" "slow"; Request "net" "slow"] |};
      {| ctr_QOSResources := [Request "gpu" "fast"] |} ]
|}.

(** A capacity description that names the resource gpu twice: first with
    the classes fast and slow, then with fast alone. *)
Definition twice_infos : list QOSResourceInfo :=
  [Info "gpu" [ClassInfo "fast" 8; ClassInfo "slow" 16];
   Info "gpu" [ClassInfo "fast" 9]].

(** A ledger whose amount for (gpu, fast) came back to zero: a ledger with
    (gpu, fast) = 1 is added to an unset one and subtracted again. *)
Definition zero_ledger : M ptr :=
  m ← QOSResourcesTotalFromInfo [Info "gpu" [ClassInfo "fast" 1]];
  other ← new_var m;
  l ← new_var None;
  Sum (Some l) (Some other) true ;;
  Sum (Some l) (Some other) false ;;
  ret (Some l).

(** A pod with two pod-level requests for (gpu, fast), three containers
    that each request (gpu, fast), and two init containers that request
    (gpu, fast) and (net, slow). *)
Definition sample_pod : Pod := {|
  pod_QOSResources := [PodRequest "gpu" "fast"; PodRequest "gpu" "fast"];
  pod_Containers :=
    [ {| ctr_QOSResources := [Request "gpu" "fast"] |};
      {| ctr_QOSResources := [Request "gpu" "fast"] |};
      {| ctr_QOSResources := [Request "gpu" "fast"] |} ];
  pod_InitContainers :=
    [ {| ctr_QOSResources := [Request "gpu" "fast"; Request "net" "slow"] |};
      {| ctr_QOSResources := [Request "net" "slow"] |} ]
|}.

(** ** int64 arithmetic *)

Lemma wrap64_int64 z : int64 (wrap64 z).
Proof.
  unfold int64, wrap64.
  pose proof (Z.mod_pos_bound (z + 2 ^ 63) (2 ^ 64) ltac:(lia)). lia.
Qed.

Lemma wrap64_id z : int64 z → wrap64 z = z.
Proof.
  unfold int64, wrap64. intros Hz.
  rewrite Z.mod_small by lia. lia.
Qed.

Lemma wrap64_mod z : ∃ q, wrap64 z = z + q * 2 ^ 64.
Proof.
  exists (- ((z + 2 ^ 63) / 2 ^ 64)). unfold wrap64.
  rewrite Z.mod_eq by lia. lia.
Qed.

Lemma wrap64_shift z q : wrap64 (z + q * 2 ^ 64) = wrap64 z.
Proof.
  unfold wrap64. f_equal.
  replace (z + q * 2 ^ 64 + 2 ^ 63) with (z + 2 ^ 63 + q * 2 ^ 64) by lia.
  apply Z_mod_plus_full.
Qed.

(** Adding [b] and then its negation, each with wrap-around, gives back [a]. *)
Lemma wrap64_cancel a b : int64 a → wrap64 (wrap64 (a + b) + wrap64 (-1 * b)) = a.
Proof.
  intros Ha.
  destruct (wrap64_mod (a + b)) as [q1 ->]. destruct (wrap64_mod (-1 * b)) as [q2 ->].
  replace (a + b + q1 * 2 ^ 64 + (-1 * b + q2 * 2 ^ 64)) with (a + (q1 + q2) * 2 ^ 64) by lia.
  rewrite wrap64_shift. by apply wrap64_id.
Qed.

(** ** Running the primitives *)

Lemma bind_run {A B} (m : M A) (f : A → M B) h x h' :
  m h = Some (x, h') → (m ≫= f) h = f x h'.
Proof. intros Hm. unfold mbind, M_bind, bind. by rewrite Hm. Qed.

Lemma deref_eq c h v : cells h !! c = Some v → deref c h = Some (v, h).
Proof. intros Hc. unfold deref. by rewrite Hc. Qed.

Lemma outer_index_some o n h m t :
  outers h !! o = Some m → m !! n = Some t →
  outer_index (Some o) n h = Some ((t, true), h).
Proof. intros Hm Hn. unfold outer_index. by rewrite Hm, Hn. Qed.

Lemma outer_index_none o n h m :
  outers h !! o = Some m → m !! n = None →
  outer_index (Some o) n h = Some ((None, false), h).
Proof. intros Hm Hn. unfold outer_index. by rewrite Hm, Hn. Qed.

Lemma inner_index_some i k h im a :
  inners h !! i = Some im → im !! k = Some a →
  inner_index (Some i) k h = Some ((a, true), h).
Proof. intros Hm Hk. unfold inner_index. by rewrite Hm, Hk. Qed.

Lemma inner_index_none i k h im :
  inners h !! i = Some im → im !! k = None →
  inner_index (Some i) k h = Some ((0, false), h).
Proof. intros Hm Hk. unfold inner_index. by rewrite Hm, Hk. Qed.

Lemma outer_store_eq o n t h m :
  outers h !! o = Some m →
  outer_store (Some o) n t h =
  Some ((), Heap (cells h) (<[o := <[n := t]> m]> (outers h)) (inners h)).
Proof. intros Hm. unfold outer_store. by rewrite Hm. Qed.

Lemma inner_store_eq i k a h im :
  inners h !! i = Some im →
  inner_store (Some i) k a h =
  Some ((), Heap (cells h) (outers h) (<[i := <[k := a]> im]> (inners h))).
Proof. intros Hm. unfold inner_store. by rewrite Hm. Qed.

Lemma outer_range_eq o h m :
  outers h !! o = Some m → outer_range (Some o) h = Some (map_to_list m, h).
Proof. intros Hm. unfold outer_range. by rewrite Hm. Qed.

Lemma inner_range_eq i h im :
  inners h !! i = Some im → inner_range (Some i) h = Some (map_to_list im, h).
Proof. intros Hm. unfold inner_range. by rewrite Hm. Qed.

(** One statement: run [m], whose result is given by [H]. *)
Ltac step H := rewrite (bind_run _ _ _ _ _ H); cbv beta iota.

(** ** Reading entries *)

Lemma entry_nil h c n k : cells h !! c = Some None → entry h (Some c) n k = None.
Proof. intros Hc. unfold entry. simpl. by rewrite Hc. Qed.

Lemma entry_absent h c o m n k :
  cells h !! c = Some (Some o) → outers h !! o = Some m →
  default None (m !! n) = None → entry h (Some c) n k = None.
Proof.
  intros Hc Hm Hn. unfold entry. simpl. rewrite Hc. simpl. rewrite Hm. simpl.
  destruct (m !! n) as [t|]; [|done]. simpl in *. by subst t.
Qed.

Lemma entry_eq h c o m n i im k :
  cells h !! c = Some (Some o) → outers h !! o = Some m →
  m !! n = Some (Some i) → inners h !! i = Some im →
  entry h (Some c) n k = im !! k.
Proof.
  intros Hc Hm Hn Hi. unfold entry. simpl. rewrite Hc. simpl. rewrite Hm. simpl.
  rewrite Hn. simpl. by rewrite Hi.
Qed.

Lemma entry_Some h c n k a :
  entry h (Some c) n k = Some a →
  ∃ o m i im, cells h !! c = Some (Some o) ∧ outers h !! o = Some m ∧
    m !! n = Some (Some i) ∧ inners h !! i = Some im ∧ im !! k = Some a.
Proof.
  unfold entry. simpl. intros He.
  destruct (cells h !! c) as [[o|]|] eqn:Hc; simpl in He; [|done..].
  destruct (outers h !! o) as [m|] eqn:Hm; simpl in He; [|done].
  destruct (m !! n) as [[i|]|] eqn:Hn; simpl in He; [|done..].
  destruct (inners h !! i) as [im|] eqn:Hi; simpl in He; [|done].
  by exists o, m, i, im.
Qed.


Lemma frame_refl c h : frame c h h.
Proof. intros c2 _. split; [done|]. intros o _. split; [done|]. done. Qed.

Lemma frame_trans c h1 h2 h3 : frame c h1 h2 → frame c h2 h3 → frame c h1 h3.
Proof.
  intros H12 H23 c2 Hc2.
  destruct (H12 c2 Hc2) as [Hc12 Ho12]. destruct (H23 c2 Hc2) as [Hc23 Ho23].
  split; [congruence|]. intros o Ho.
  destruct (Ho12 o Ho) as [Hm12 Hi12].
  destruct (Ho23 o ltac:(congruence)) as [Hm23 Hi23].
  split; [congruence|]. intros m k i Hm Hk.
  rewrite (Hi23 m k i) by congruence. by apply (Hi12 m k i).
Qed.

Lemma frame_entry c h h' c2 n k :
  frame c h h' → c2 ≠ c → entry h' (Some c2) n k = entry h (Some c2) n k.
Proof.
  intros Hf Hne. destruct (Hf c2 Hne) as [Hc Ho]. unfold entry. simpl.
  rewrite Hc. destruct (cells h !! c2) as [[o|]|] eqn:Ec; simpl; [|done..].
  destruct (Ho o eq_refl) as [Hm Hi]. rewrite Hm.
  destruct (outers h !! o) as [m|] eqn:Em; simpl; [|done].
  destruct (m !! n) as [[i|]|] eqn:En; simpl; [|done..].
  by rewrite (Hi m n i).
Qed.

Lemma ext_refl c h : wf h → ext c h h.
Proof. intros Hwf. split; [done..|apply frame_refl|done]. Qed.

Lemma ext_trans c h1 h2 h3 : ext c h1 h2 → ext c h2 h3 → ext c h1 h3.
Proof.
  intros [? Hc1 Hi1 Hf1 Hk1] [? Hc2 Hi2 Hf2 Hk2]. split.
  - done.
  - by rewrite Hc2.
  - set_solver.
  - by eapply frame_trans.
  - auto.
Qed.

Lemma ext_valid c h h' r : ext c h h' → valid h r → valid h' r.
Proof.
  intros He. destruct r as [c'|]; simpl; [|done].
  rewrite <- !elem_of_dom. by rewrite (ext_cells _ _ _ He).
Qed.

Lemma ext_entry c h h' c2 n k :
  ext c h h' → c2 ≠ c → entry h' (Some c2) n k = entry h (Some c2) n k.
Proof. intros He. apply frame_entry, He. Qed.

(** [GetAmount] reads the entry and leaves the store as it is. *)
Lemma GetAmount_entry h r n k :
  wf h → valid h r → GetAmount r n k h = Some (found (entry h r n k), h).
Proof.
  intros Hwf Hv. destruct r as [c|]; [|reflexivity].
  destruct Hv as [v Hv]. unfold GetAmount. step (deref_eq _ _ _ Hv).
  destruct v as [o|]; [|by rewrite (entry_nil _ _ _ _ Hv)].
  destruct (wf_cell _ Hwf _ _ Hv) as [m Hm].
  destruct (m !! n) as [t|] eqn:Hn.
  2:{ step (outer_index_none _ _ _ _ Hm Hn). cbn [negb].
      by rewrite (entry_absent _ _ _ _ n k Hv Hm) by by rewrite Hn. }
  step (outer_index_some _ _ _ _ _ Hm Hn). cbn [negb].
  step (deref_eq _ _ _ Hv). step (outer_index_some _ _ _ _ _ Hm Hn).
  destruct t as [i|].
  2:{ rewrite (entry_absent _ _ _ _ n k Hv Hm) by by rewrite Hn. reflexivity. }
  destruct (wf_outer _ Hwf _ _ _ _ Hm Hn) as [im Him].
  rewrite (entry_eq _ _ _ _ _ _ _ k Hv Hm Hn Him).
  destruct (im !! k) as [a|] eqn:Hk.
  - by step (inner_index_some _ _ _ _ _ Him Hk).
  - by step (inner_index_none _ _ _ _ Him Hk).
Qed.

(** ** The three statements of [add] *)

Lemma fresh_outer h : outers h !! fresh (dom (outers h)) = None.
Proof. apply not_elem_of_dom, is_fresh. Qed.

Lemma fresh_inner h : inners h !! fresh (dom (inners h)) = None.
Proof. apply not_elem_of_dom, is_fresh. Qed.

Lemma fresh_cell h : cells h !! fresh (dom (cells h)) = None.
Proof. apply not_elem_of_dom, is_fresh. Qed.

Lemma add_init_total_spec h c :
  wf h → is_Some (cells h !! c) →
  ∃ h' o, add_init_total c h = Some ((), h') ∧ ext c h h' ∧
    cells h' !! c = Some (Some o) ∧
    ∀ n k, entry h' (Some c) n k = entry h (Some c) n k.
Proof.
  intros Hwf [v Hc]. unfold add_init_total. step (deref_eq _ _ _ Hc).
  destruct v as [o|].
  { exists h, o. split; [done|]. split; [by apply ext_refl|]. done. }
  pose proof (fresh_outer h) as Hfr. set (o := fresh (dom (outers h))) in *.
  assert (make_outer h = Some (Some o, Heap (cells h) (<[o := ∅]> (outers h)) (inners h)))
    as Hmk by done.
  step Hmk. unfold assign. cbn [cells outers inners]. rewrite Hc.
  eexists _, o. split; [done|].
  assert (∀ c' o', cells h !! c' = Some (Some o') → o' ≠ o) as Hold.
  { intros c' o' Hc' ->. destruct (wf_cell _ Hwf _ _ Hc') as [? ?]. congruence. }
  split; [split|split].
  - split; cbn [cells outers inners].
    + intros c' o'. rewrite lookup_insert. case_decide as Hcc.
      * intros [= <-]. rewrite lookup_insert_eq. eauto.
      * intros Hc'. rewrite lookup_insert_ne by (by apply not_eq_sym, (Hold c')).
        by eapply wf_cell.
    + intros o1 m k i. rewrite lookup_insert. case_decide.
      * intros [= <-]. by rewrite lookup_empty.
      * by eapply wf_outer.
    + intros c1 c2 o'. rewrite !lookup_insert.
      repeat case_decide; subst; try congruence.
      * intros [= <-] Hc2. by destruct (Hold _ _ Hc2).
      * intros Hc1 [= <-]. by destruct (Hold _ _ Hc1).
      * by eapply wf_cell_own.
    + intros o1 o2 m1 m2 k1 k2 i. rewrite !lookup_insert.
      repeat case_decide; subst.
      * intros [= <-]. by rewrite lookup_empty.
      * intros [= <-]. by rewrite lookup_empty.
      * intros _ [= <-]. by rewrite lookup_empty.
      * by eapply wf_outer_own.
    + by eapply wf_amount.
  - cbn [cells]. rewrite dom_insert_L. apply elem_of_dom_2 in Hc. set_solver.
  - done.
  - intros c2 Hc2. cbn [cells outers inners]. split; [by rewrite lookup_insert_ne|].
    intros o' Ho'. split; [|done].
    rewrite lookup_insert_ne; [done|]. by apply not_eq_sym, (Hold c2).
  - intros n k Hk. rewrite (entry_nil _ _ _ _ Hc) in Hk. by destruct Hk.
  - cbn [cells]. by rewrite lookup_insert_eq.
  - intros n k. rewrite (entry_nil _ _ _ _ Hc).
    eapply entry_absent; cbn [cells outers]; [by rewrite lookup_insert_eq..|].
    by rewrite lookup_empty.
Qed.

(** *** Updates of the store that keep it well formed *)

Lemma fresh_unref h i : wf h → inners h !! i = None → unref h i.
Proof.
  intros Hwf Hi o m k Hm Hk. destruct (wf_outer _ Hwf _ _ _ _ Hm Hk). congruence.
Qed.

Lemma wf_inner_alloc h i :
  wf h → inners h !! i = None →
  wf (Heap (cells h) (outers h) (<[i := ∅]> (inners h))).
Proof.
  intros Hwf Hi. split; cbn [cells outers inners].
  - by eapply wf_cell.
  - intros o m k j Hm Hk. destruct (wf_outer _ Hwf _ _ _ _ Hm Hk) as [im Hj].
    rewrite lookup_insert_ne by congruence. eauto.
  - by eapply wf_cell_own.
  - by eapply wf_outer_own.
  - intros j im k a. rewrite lookup_insert. case_decide.
    + intros [= <-]. by rewrite lookup_empty.
    + by eapply wf_amount.
Qed.

Lemma wf_inner_store h i im k a :
  wf h → inners h !! i = Some im → int64 a →
  wf (Heap (cells h) (outers h) (<[i := <[k := a]> im]> (inners h))).
Proof.
  intros Hwf Hi Ha. split; cbn [cells outers inners].
  - by eapply wf_cell.
  - intros o m k' j Hm Hk. destruct (wf_outer _ Hwf _ _ _ _ Hm Hk) as [im' Hj].
    rewrite lookup_insert. case_decide; eauto.
  - by eapply wf_cell_own.
  - by eapply wf_outer_own.
  - intros j im' k' a'. rewrite lookup_insert. case_decide.
    + intros [= <-]. rewrite lookup_insert. case_decide.
      * by intros [= <-].
      * intros Hk'. by eapply wf_amount.
    + by eapply wf_amount.
Qed.

Lemma wf_outer_store h o m n i :
  wf h → outers h !! o = Some m → is_Some (inners h !! i) → unref h i →
  wf (Heap (cells h) (<[o := <[n := Some i]> m]> (outers h)) (inners h)).
Proof.
  intros Hwf Hm Hi Hun. split; cbn [cells outers inners].
  - intros c o' Hc. destruct (wf_cell _ Hwf _ _ Hc).
    rewrite lookup_insert. case_decide; eauto.
  - intros o1 m1 k j. rewrite lookup_insert. case_decide.
    + intros [= <-]. rewrite lookup_insert. case_decide.
      * by intros [= <-].
      * by eapply wf_outer.
    + by eapply wf_outer.
  - by eapply wf_cell_own.
  - intros o1 o2 m1 m2 k1 k2 j. rewrite !lookup_insert.
    repeat case_decide; subst.
    + intros [= <-] [= <-]. rewrite !lookup_insert.
      repeat case_decide; subst; try done.
      * intros [= <-] Hk2. by destruct (Hun _ _ _ Hm Hk2).
      * intros Hk1 [= <-]. by destruct (Hun _ _ _ Hm Hk1).
      * intros Hk1 Hk2. by destruct (wf_outer_own _ Hwf _ _ _ _ _ _ _ Hm Hm Hk1 Hk2).
    + intros [= <-] Hm2. rewrite lookup_insert. case_decide.
      * intros [= <-] Hk2. by destruct (Hun _ _ _ Hm2 Hk2).
      * intros Hk1 Hk2. by destruct (wf_outer_own _ Hwf _ _ _ _ _ _ _ Hm Hm2 Hk1 Hk2).
    + intros Hm1 [= <-]. rewrite lookup_insert. case_decide.
      * intros Hk1 [= <-]. by destruct (Hun _ _ _ Hm1 Hk1).
      * intros Hk1 Hk2. by destruct (wf_outer_own _ Hwf _ _ _ _ _ _ _ Hm1 Hm Hk1 Hk2).
    + by eapply wf_outer_own.
  - by eapply wf_amount.
Qed.

Lemma add_init_resource_spec h c o name :
  wf h → cells h !! c = Some (Some o) →
  ∃ h' m i, add_init_resource c name h = Some ((), h') ∧ ext c h h' ∧
    cells h' !! c = Some (Some o) ∧ outers h' !! o = Some m ∧
    m !! name = Some (Some i) ∧
    ∀ n k, entry h' (Some c) n k = entry h (Some c) n k.
Proof.
  intros Hwf Hc. destruct (wf_cell _ Hwf _ _ Hc) as [m Hm].
  unfold add_init_resource. step (deref_eq _ _ _ Hc).
  assert (default None (m !! name) = None →
    ∃ h' m i, (n ← make_inner; v ← deref c; outer_store v name n) h = Some ((), h') ∧
      ext c h h' ∧ cells h' !! c = Some (Some o) ∧ outers h' !! o = Some m ∧
      m !! name = Some (Some i) ∧
      ∀ n k, entry h' (Some c) n k = entry h (Some c) n k) as Hnew.
  { intros Hnone.
    pose proof (fresh_inner h) as Hfr. set (i := fresh (dom (inners h))) in *.
    pose proof (wf_inner_alloc _ _ Hwf Hfr) as Hwf1.
    set (h1 := Heap (cells h) (outers h) (<[i := ∅]> (inners h))) in *.
    assert (make_inner h = Some (Some i, h1)) as Hmk by done.
    step Hmk. step (deref_eq c h1 _ Hc).
    rewrite (outer_store_eq o name (Some i) h1 m Hm).
    assert (unref h1 i) as Hun by (by apply (fresh_unref h)).
    assert (is_Some (inners h1 !! i)) as Hi1.
    { unfold h1. cbn [inners]. rewrite lookup_insert_eq. eauto. }
    pose proof (wf_outer_store _ _ _ name _ Hwf1 Hm Hi1 Hun) as Hwf2.
    eexists _, _, i. split; [done|]. subst h1. cbn [cells outers inners] in *.
    assert (∀ n k, entry (Heap (cells h) (<[o := <[name := Some i]> m]> (outers h))
                            (<[i := ∅]> (inners h))) (Some c) n k
                   = entry h (Some c) n k) as Hent.
    { intros n k. destruct (decide (n = name)) as [->|Hn].
      - rewrite (entry_absent h c o m name k Hc Hm Hnone).
        erewrite entry_eq; cbn [cells outers inners];
          [|done|by rewrite lookup_insert_eq..]. by rewrite lookup_empty.
      - destruct (m !! n) as [[j|]|] eqn:Hj.
        + destruct (wf_outer _ Hwf _ _ _ _ Hm Hj) as [im Him].
          rewrite (entry_eq h c o m n j im k Hc Hm Hj Him).
          eapply entry_eq; cbn [cells outers inners];
            [done|by rewrite lookup_insert_eq|by rewrite lookup_insert_ne|].
          rewrite lookup_insert_ne; [done|congruence].
        + rewrite (entry_absent h c o m n k Hc Hm) by by rewrite Hj.
          eapply entry_absent; cbn [cells outers inners];
            [done|by rewrite lookup_insert_eq|].
          by rewrite lookup_insert_ne, Hj.
        + rewrite (entry_absent h c o m n k Hc Hm) by by rewrite Hj.
          eapply entry_absent; cbn [cells outers inners];
            [done|by rewrite lookup_insert_eq|].
          by rewrite lookup_insert_ne, Hj. }
    split; [split|].
    - done.
    - done.
    - cbn [inners]. rewrite dom_insert_L. set_solver.
    - intros c2 Hc2. cbn [cells outers inners]. split; [done|].
      intros o2 Ho2. assert (o2 ≠ o) as Hne.
      { intros ->. by destruct Hc2, (wf_cell_own _ Hwf _ _ _ Ho2 Hc). }
      split; [by rewrite lookup_insert_ne|].
      intros m2 k2 i2 Hm2 Hk2. destruct (wf_outer _ Hwf _ _ _ _ Hm2 Hk2).
      rewrite lookup_insert_ne; [done|congruence].
    - intros n k. by rewrite Hent.
    - split; [done|]. split; [by rewrite lookup_insert_eq|].
      split; [by rewrite lookup_insert_eq|]. done. }
  destruct (m !! name) as [t|] eqn:Hn.
  - step (outer_index_some _ _ _ _ _ Hm Hn). destruct t as [i|].
    + exists h, m, i. split; [done|]. split; [by apply ext_refl|]. done.
    + by apply Hnew.
  - step (outer_index_none _ _ _ _ Hm Hn). by apply Hnew.
Qed.

Lemma add_bump_spec h c o m name i class amount :
  wf h → cells h !! c = Some (Some o) → outers h !! o = Some m →
  m !! name = Some (Some i) →
  ∃ h', add_bump c name class amount h = Some ((), h') ∧ ext c h h' ∧
    ∀ n k, entry h' (Some c) n k =
      if decide (n = name ∧ k = class)
      then Some (wrap64 (default 0 (entry h (Some c) name class) + amount))
      else entry h (Some c) n k.
Proof.
  intros Hwf Hc Hm Hn. destruct (wf_outer _ Hwf _ _ _ _ Hm Hn) as [im Hi].
  unfold add_bump. step (deref_eq _ _ _ Hc). step (outer_index_some _ _ _ _ _ Hm Hn).
  rewrite (entry_eq h c o m name i im class Hc Hm Hn Hi).
  assert (∃ ok, inner_index (Some i) class h = Some ((default 0 (im !! class), ok), h))
    as [ok Hx].
  { destruct (im !! class) as [a|] eqn:Hk.
    - exists true. by eapply inner_index_some.
    - exists false. by eapply inner_index_none. }
  step Hx. step (deref_eq _ _ _ Hc). step (outer_index_some _ _ _ _ _ Hm Hn).
  rewrite (inner_store_eq _ class (wrap64 (default 0 (im !! class) + amount)) _ _ Hi).
  eexists. split; [done|].
  pose proof (wf_inner_store _ _ _ class _ Hwf Hi
                (wrap64_int64 (default 0 (im !! class) + amount))) as Hwf'.
  assert (∀ n k,
    entry (Heap (cells h) (outers h)
             (<[i := <[class := wrap64 (default 0 (im !! class) + amount)]> im]> (inners h)))
          (Some c) n k =
    if decide (n = name ∧ k = class)
    then Some (wrap64 (default 0 (im !! class) + amount))
    else entry h (Some c) n k) as Hent.
  { intros n k. destruct (decide (n = name)) as [->|Hne].
    - erewrite entry_eq; cbn [cells outers inners]; [|done..|by rewrite lookup_insert_eq].
      rewrite (entry_eq h c o m name i im k Hc Hm Hn Hi).
      rewrite lookup_insert. repeat case_decide; naive_solver.
    - rewrite decide_False by naive_solver.
      destruct (m !! n) as [[j|]|] eqn:Hj.
      + destruct (wf_outer _ Hwf _ _ _ _ Hm Hj) as [jm Hjm].
        rewrite (entry_eq h c o m n j jm k Hc Hm Hj Hjm).
        eapply entry_eq; cbn [cells outers inners]; [done..|].
        rewrite lookup_insert_ne; [done|]. intros ->.
        by destruct (wf_outer_own _ Hwf _ _ _ _ _ _ _ Hm Hm Hn Hj) as [_ ?].
      + rewrite (entry_absent h c o m n k Hc Hm) by by rewrite Hj.
        eapply entry_absent; cbn [cells outers inners]; [done..|]. by rewrite Hj.
      + rewrite (entry_absent h c o m n k Hc Hm) by by rewrite Hj.
        eapply entry_absent; cbn [cells outers inners]; [done..|]. by rewrite Hj. }
  split; [split|done].
  - done.
  - done.
  - cbn [inners]. rewrite dom_insert_L. set_solver.
  - intros c2 Hc2. cbn [cells outers inners]. split; [done|].
    intros o2 Ho2. split; [done|]. intros m2 k2 i2 Hm2 Hk2.
    rewrite lookup_insert_ne; [done|]. intros ->.
    destruct (wf_outer_own _ Hwf _ _ _ _ _ _ _ Hm Hm2 Hn Hk2) as [-> _].
    by destruct Hc2, (wf_cell_own _ Hwf _ _ _ Ho2 Hc).
  - intros n k Hk. rewrite Hent. by case_decide.
Qed.

(** ** [add] *)

Lemma add_spec h c name class amount :
  wf h → is_Some (cells h !! c) →
  ∃ h', add (Some c) name class amount h = Some ((), h') ∧ ext c h h' ∧
    ∀ n k, entry h' (Some c) n k =
      if decide (n = name ∧ k = class)
      then Some (wrap64 (default 0 (entry h (Some c) name class) + amount))
      else entry h (Some c) n k.
Proof.
  intros Hwf Hc. unfold add.
  destruct (add_init_total_spec h c Hwf Hc) as (h1 & o & Hrun1 & Hext1 & Hc1 & Hent1).
  step Hrun1.
  destruct (add_init_resource_spec h1 c o name (ext_wf _ _ _ Hext1) Hc1)
    as (h2 & m & i & Hrun2 & Hext2 & Hc2 & Hm2 & Hn2 & Hent2).
  step Hrun2.
  destruct (add_bump_spec h2 c o m name i class amount (ext_wf _ _ _ Hext2) Hc2 Hm2 Hn2)
    as (h3 & Hrun3 & Hext3 & Hent3).
  exists h3. split; [done|]. split.
  - eapply ext_trans; [|done]. by eapply ext_trans.
  - intros n k. by rewrite Hent3, !Hent2, !Hent1.
Qed.

(** ** Loops of [add] *)

Lemma wrap64_wrap64_add x y : wrap64 (wrap64 x + y) = wrap64 (x + y).
Proof.
  destruct (wrap64_mod x) as [q ->].
  replace (x + q * 2 ^ 64 + y) with (x + y + q * 2 ^ 64) by lia.
  apply wrap64_shift.
Qed.

Lemma bump_bump n1 n2 e : bump n2 (bump n1 e) = bump (n1 + n2) e.
Proof.
  destruct n1 as [|n1]; [done|]. destruct n2 as [|n2].
  { by rewrite Nat.add_0_r. }
  cbn [bump Nat.add from_option]. unfold id. f_equal.
  rewrite wrap64_wrap64_add. f_equal. lia.
Qed.

Lemma occurrences_app n k l1 l2 :
  occurrences n k (l1 ++ l2) = (occurrences n k l1 + occurrences n k l2)%nat.
Proof. induction l1 as [|p l1 IH]; simpl; [done|]. rewrite IH. lia. Qed.


(** A loop that adds one unit per element of a list. *)
Lemma add_units_spec {A} (nm cl : A → string) (l : list A) h c :
  wf h → is_Some (cells h !! c) →
  ∃ h', for_each l (λ x, add (Some c) (nm x) (cl x) 1) h = Some ((), h') ∧ ext c h h' ∧
    ∀ n k, entry h' (Some c) n k =
      bump (occurrences n k ((λ x, (nm x, cl x)) <$> l)) (entry h (Some c) n k).
Proof.
  revert h. induction l as [|x l IH]; intros h Hwf Hc.
  { exists h. split; [done|]. split; [by apply ext_refl|]. done. }
  destruct (add_spec h c (nm x) (cl x) 1 Hwf Hc) as (h1 & Hrun1 & Hext1 & Hent1).
  cbn [for_each]. step Hrun1.
  destruct (IH h1 (ext_wf _ _ _ Hext1) (ext_valid _ _ _ (Some c) Hext1 Hc))
    as (h2 & Hrun2 & Hext2 & Hent2).
  exists h2. split; [done|]. split; [by eapply ext_trans|].
  intros n k. rewrite Hent2, Hent1. cbn [fmap list_fmap occurrences].
  rewrite <- bump_bump. f_equal.
  repeat case_decide; try naive_solver.
Qed.

Lemma AddPodQOSResources_spec h c qrl :
  wf h → is_Some (cells h !! c) →
  ∃ h', AddPodQOSResources (Some c) qrl h = Some ((), h') ∧ ext c h h' ∧
    ∀ n k, entry h' (Some c) n k =
      bump (occurrences n k (pod_request_pairs qrl)) (entry h (Some c) n k).
Proof. apply (add_units_spec preq_Name preq_Class). Qed.

Lemma AddContainerQOSResources_spec h c qrl :
  wf h → is_Some (cells h !! c) →
  ∃ h', AddContainerQOSResources (Some c) qrl h = Some ((), h') ∧ ext c h h' ∧
    ∀ n k, entry h' (Some c) n k =
      bump (occurrences n k (request_pairs qrl)) (entry h (Some c) n k).
Proof. apply (add_units_spec req_Name req_Class). Qed.

(** ** [SetMaxContainerQOSResources] *)

Lemma floor_one_idemp e : floor_one (floor_one e) = floor_one e.
Proof.
  destruct e as [a|]; [|done]. simpl. by destruct (a =? 0) eqn:Ha; simpl; [|rewrite Ha].
Qed.

Lemma set_max_one_spec h c qr :
  wf h → is_Some (cells h !! c) →
  ∃ h', set_max_one c qr h = Some ((), h') ∧ ext c h h' ∧
    ∀ n k, entry h' (Some c) n k =
      if decide (n = req_Name qr ∧ k = req_Class qr)
      then floor_one (entry h (Some c) n k)
      else entry h (Some c) n k.
Proof.
  intros Hwf [v Hc]. unfold set_max_one. step (deref_eq _ _ _ Hc).
  destruct (add_spec h c (req_Name qr) (req_Class qr) 1 Hwf ltac:(eauto))
    as (h1 & Hrun1 & Hext1 & Hent1).
  assert (default 0 (entry h (Some c) (req_Name qr) (req_Class qr)) = 0 →
    ∃ h', add (Some c) (req_Name qr) (req_Class qr) 1 h = Some ((), h') ∧ ext c h h' ∧
      ∀ n k, entry h' (Some c) n k =
        if decide (n = req_Name qr ∧ k = req_Class qr)
        then floor_one (entry h (Some c) n k)
        else entry h (Some c) n k) as Hadd.
  { intros Hz. exists h1. split; [done|]. split; [done|].
    intros n k. rewrite Hent1. case_decide as Hd; [|done]. destruct Hd as [-> ->].
    rewrite Hz. destruct (entry h (Some c) (req_Name qr) (req_Class qr)) as [a|]; [|done].
    simpl in Hz. by subst a. }
  destruct v as [o|].
  2:{ apply Hadd. by rewrite (entry_nil _ _ _ _ Hc). }
  destruct (wf_cell _ Hwf _ _ Hc) as [m Hm].
  destruct (m !! req_Name qr) as [t|] eqn:Hn.
  2:{ step (outer_index_none _ _ _ _ Hm Hn). apply Hadd.
      by rewrite (entry_absent _ _ _ _ _ _ Hc Hm) by by rewrite Hn. }
  step (outer_index_some _ _ _ _ _ Hm Hn). destruct t as [i|].
  2:{ apply Hadd. by rewrite (entry_absent _ _ _ _ _ _ Hc Hm) by by rewrite Hn. }
  step (deref_eq _ _ _ Hc). step (outer_index_some _ _ _ _ _ Hm Hn).
  destruct (wf_outer _ Hwf _ _ _ _ Hm Hn) as [im Hi].
  pose proof (entry_eq h c o m _ i im (req_Class qr) Hc Hm Hn Hi) as He.
  destruct (im !! req_Class qr) as [a|] eqn:Hk.
  - step (inner_index_some _ _ _ _ _ Hi Hk). destruct (a =? 0) eqn:Ha.
    + apply Hadd. rewrite He. simpl. by apply Z.eqb_eq.
    + exists h. split; [done|]. split; [by apply ext_refl|].
      intros n k. case_decide as Hd; [|done]. destruct Hd as [-> ->].
      rewrite He. simpl. by rewrite Ha.
  - step (inner_index_none _ _ _ _ Hi Hk). change (0 =? 0) with true. cbv iota.
    apply Hadd. by rewrite He.
Qed.

Lemma SetMaxContainerQOSResources_spec h c qrl :
  wf h → is_Some (cells h !! c) →
  ∃ h', SetMaxContainerQOSResources (Some c) qrl h = Some ((), h') ∧ ext c h h' ∧
    ∀ n k, entry h' (Some c) n k =
      if decide ((n, k) ∈ request_pairs qrl)
      then floor_one (entry h (Some c) n k)
      else entry h (Some c) n k.
Proof.
  unfold SetMaxContainerQOSResources. revert h.
  induction qrl as [|qr qrl IH]; intros h Hwf Hc.
  { exists h. split; [done|]. split; [by apply ext_refl|].
    intros n k. rewrite decide_False; [done|]. by intros ?%elem_of_nil. }
  destruct (set_max_one_spec h c qr Hwf Hc) as (h1 & Hrun1 & Hext1 & Hent1).
  cbn [for_each]. step Hrun1.
  destruct (IH h1 (ext_wf _ _ _ Hext1) (ext_valid _ _ _ (Some c) Hext1 Hc))
    as (h2 & Hrun2 & Hext2 & Hent2).
  exists h2. split; [done|]. split; [by eapply ext_trans|].
  intros n k. rewrite Hent2, Hent1. unfold request_pairs. cbn [fmap list_fmap].
  fold (request_pairs qrl). rewrite (decide_ext _ _ _ _ (elem_of_cons _ _ _)).
  repeat case_decide; try rewrite floor_one_idemp; naive_solver.
Qed.

(** ** [Sum] *)

Lemma entry_inner h c o m n k :
  cells h !! c = Some (Some o) → outers h !! o = Some m →
  entry h (Some c) n k = (t ← m !! n; inner_entry h t k).
Proof. intros Hc Hm. unfold entry. simpl. rewrite Hc. simpl. by rewrite Hm. Qed.

Lemma sum_inner_spec (b : bool) n (ies : list (string * Z)) h c :
  wf h → is_Some (cells h !! c) →
  ∃ h',
    for_each ies (λ '(clsName, clsAmount),
      if b then add (Some c) n clsName clsAmount
      else add (Some c) n clsName (wrap64 (-1 * clsAmount))) h = Some ((), h') ∧
    ext c h h' ∧
    (NoDup ies.*1 → ∀ n' k', entry h' (Some c) n' k' =
       match (if decide (n' = n) then (list_to_map ies : gmap string Z) !! k' else None) with
       | Some a => Some (wrap64 (default 0 (entry h (Some c) n' k') + signed b a))
       | None => entry h (Some c) n' k'
       end).
Proof.
  revert h. induction ies as [|[k a] ies IH]; intros h Hwf Hc.
  { exists h. split; [done|]. split; [by apply ext_refl|].
    intros _ n' k'. rewrite list_to_map_nil. case_decide; [by rewrite lookup_empty|done]. }
  destruct (add_spec h c n k (signed b a) Hwf Hc) as (h1 & Hrun1 & Hext1 & Hent1).
  assert ((if b then add (Some c) n k a else add (Some c) n k (wrap64 (-1 * a))) h
          = Some ((), h1)) as Hrun1' by (by destruct b).
  cbn [for_each]. step Hrun1'.
  destruct (IH h1 (ext_wf _ _ _ Hext1) (ext_valid _ _ _ (Some c) Hext1 Hc))
    as (h2 & Hrun2 & Hext2 & Hent2).
  exists h2. split; [done|]. split; [by eapply ext_trans|].
  intros Hnd n' k'. apply NoDup_cons in Hnd as [Hk Hnd].
  rewrite (Hent2 Hnd), !Hent1. rewrite list_to_map_cons.
  destruct (decide (n' = n)) as [->|Hn].
  - rewrite lookup_insert. destruct (decide (k = k')) as [<-|Hk'].
    + rewrite (not_elem_of_list_to_map_1 _ _ Hk). by rewrite decide_True.
    + rewrite decide_False by naive_solver. done.
  - rewrite decide_False by naive_solver. done.
Qed.

Lemma sum_outer_spec (b : bool) (es : list (string * option positive)) h c :
  wf h → is_Some (cells h !! c) →
  (∀ n i, (n, Some i) ∈ es → is_Some (inners h !! i)) →
  ∃ h',
    for_each es (λ '(resName, resTotal),
      ies ← inner_range resTotal;
      for_each ies (λ '(clsName, clsAmount),
        if b then add (Some c) resName clsName clsAmount
        else add (Some c) resName clsName (wrap64 (-1 * clsAmount)))) h = Some ((), h') ∧
    ext c h h' ∧
    ∀ c2 o2 m2, c2 ≠ c → cells h !! c2 = Some (Some o2) → outers h !! o2 = Some m2 →
      (∀ n t, (n, t) ∈ es → m2 !! n = Some t) → NoDup es.*1 →
      ∀ n k, entry h' (Some c) n k =
        match (t ← (list_to_map es : gmap string (option positive)) !! n; inner_entry h t k) with
        | Some a => Some (wrap64 (default 0 (entry h (Some c) n k) + signed b a))
        | None => entry h (Some c) n k
        end.
Proof.
  revert h. induction es as [|[n0 t0] es IH]; intros h Hwf Hc Hal.
  { exists h. split; [done|]. split; [by apply ext_refl|].
    intros c2 o2 m2 _ _ _ _ _ n k. by rewrite list_to_map_nil, lookup_empty. }
  assert (∃ ies, inner_range t0 h = Some (ies, h) ∧ NoDup ies.*1 ∧
            ∀ k, (list_to_map ies : gmap string Z) !! k = inner_entry h t0 k)
    as (ies & Hrange & Hnd0 & Hies).
  { destruct t0 as [i|].
    - destruct (Hal n0 i ltac:(left)) as [im Him]. exists (map_to_list im).
      split; [by apply inner_range_eq|]. split; [apply NoDup_fst_map_to_list|].
      intros k. rewrite list_to_map_to_list. unfold inner_entry. simpl. by rewrite Him.
    - exists []. split; [done|]. split; [constructor|]. intros k.
      by rewrite list_to_map_nil, lookup_empty. }
  destruct (sum_inner_spec b n0 ies h c Hwf Hc) as (h1 & Hrun1 & Hext1 & Hent1).
  assert ((ies ← inner_range t0;
           for_each ies (λ '(clsName, clsAmount),
             if b then add (Some c) n0 clsName clsAmount
             else add (Some c) n0 clsName (wrap64 (-1 * clsAmount)))) h = Some ((), h1))
    as Hbody by (by step Hrange).
  cbn [for_each]. cbv beta iota. step Hbody.
  destruct (IH h1 (ext_wf _ _ _ Hext1) (ext_valid _ _ _ (Some c) Hext1 Hc))
    as (h2 & Hrun2 & Hext2 & Hent2).
  { intros n i Hin. destruct (Hal n i ltac:(by right)) as [im Him].
    apply elem_of_dom. apply (ext_inners _ _ _ Hext1). by apply elem_of_dom. }
  exists h2. split; [done|]. split; [by eapply ext_trans|].
  intros c2 o2 m2 Hc2 Hcell2 Hm2 Hes Hnd n k.
  apply NoDup_cons in Hnd as [Hn0 Hnd].
  destruct (ext_frame _ _ _ Hext1 c2 Hc2) as [Hfc Hfo].
  destruct (Hfo o2 Hcell2) as [Hfm Hfi].
  rewrite (Hent2 c2 o2 m2 Hc2 ltac:(by rewrite Hfc) ltac:(by rewrite Hfm)
             ltac:(intros ???; apply Hes; by right) Hnd).
  rewrite !(Hent1 Hnd0). rewrite list_to_map_cons.
  destruct (decide (n = n0)) as [->|Hn].
  - rewrite (not_elem_of_list_to_map_1 _ _ Hn0). rewrite lookup_insert_eq. simpl.
    by rewrite Hies.
  - rewrite lookup_insert_ne by done.
    destruct ((list_to_map es : gmap string (option positive)) !! n) as [t|] eqn:Ht; [|done].
    simpl. assert (inner_entry h1 t k = inner_entry h t k) as ->; [|done].
    destruct t as [i|]; [|done]. unfold inner_entry. simpl.
    rewrite (Hfi m2 n i Hm2); [done|]. apply Hes. right.
    by apply elem_of_list_to_map_2.
Qed.

Lemma Sum_spec h c c2 (b : bool) :
  wf h → is_Some (cells h !! c) → is_Some (cells h !! c2) →
  ∃ h', Sum (Some c) (Some c2) b h = Some ((), h') ∧ ext c h h' ∧
    (c2 ≠ c → ∀ n k, entry h' (Some c) n k =
       match entry h (Some c2) n k with
       | Some a => Some (wrap64 (default 0 (entry h (Some c) n k) + signed b a))
       | None => entry h (Some c) n k
       end).
Proof.
  intros Hwf Hc [v2 Hc2]. unfold Sum. step (deref_eq _ _ _ Hc2).
  destruct v2 as [o2|].
  2:{ exists h. split; [done|]. split; [by apply ext_refl|].
      intros _ n k. by rewrite (entry_nil _ _ _ _ Hc2). }
  destruct (wf_cell _ Hwf _ _ Hc2) as [m2 Hm2].
  step (outer_range_eq _ _ _ Hm2).
  destruct (sum_outer_spec b (map_to_list m2) h c Hwf Hc) as (h' & Hrun & Hext & Hent).
  { intros n i Hin%elem_of_map_to_list. by eapply wf_outer. }
  exists h'. split; [done|]. split; [done|].
  intros Hne n k.
  rewrite (Hent c2 o2 m2 Hne Hc2 Hm2 ltac:(by intros ???%elem_of_map_to_list)
             (NoDup_fst_map_to_list _)).
  by rewrite list_to_map_to_list, (entry_inner _ _ _ _ n k Hc2 Hm2).
Qed.

Lemma Sum_ext h c r2 (b : bool) :
  wf h → is_Some (cells h !! c) → valid h r2 →
  ∃ h', Sum (Some c) r2 b h = Some ((), h') ∧ ext c h h'.
Proof.
  intros Hwf Hc Hv. destruct r2 as [c2|].
  - destruct (Sum_spec h c c2 b Hwf Hc Hv) as (h' & ? & ? & _). eauto.
  - exists h. split; [done|]. by apply ext_refl.
Qed.

(** ** Sequences of mutations *)

Lemma run_op_ext h c o :
  wf h → is_Some (cells h !! c) → op_valid h o →
  ∃ h', run_op (Some c) o h = Some ((), h') ∧ ext c h h'.
Proof.
  intros Hwf Hc Hv. destruct o as [n k a|qrl|qrl|qrl|r2 b]; cbn [run_op].
  - destruct (add_spec h c n k a Hwf Hc) as (h' & ? & ? & _). eauto.
  - destruct (AddPodQOSResources_spec h c qrl Hwf Hc) as (h' & ? & ? & _). eauto.
  - destruct (AddContainerQOSResources_spec h c qrl Hwf Hc) as (h' & ? & ? & _). eauto.
  - destruct (SetMaxContainerQOSResources_spec h c qrl Hwf Hc) as (h' & ? & ? & _). eauto.
  - by apply Sum_ext.
Qed.

Lemma op_valid_ext c h h' o : ext c h h' → op_valid h o → op_valid h' o.
Proof. intros He. destruct o; simpl; [done..|]. by eapply ext_valid. Qed.

Lemma run_ops_ext h c ops :
  wf h → is_Some (cells h !! c) → Forall (op_valid h) ops →
  ∃ h', run_ops (Some c) ops h = Some ((), h') ∧ ext c h h'.
Proof.
  unfold run_ops. revert h. induction ops as [|o ops IH]; intros h Hwf Hc Hv.
  { exists h. split; [done|]. by apply ext_refl. }
  apply Forall_cons in Hv as [Ho Hv].
  destruct (run_op_ext h c o Hwf Hc Ho) as (h1 & Hrun1 & Hext1).
  cbn [for_each]. step Hrun1.
  destruct (IH h1 (ext_wf _ _ _ Hext1) (ext_valid _ _ _ (Some c) Hext1 Hc))
    as (h2 & Hrun2 & Hext2).
  { eapply Forall_impl; [exact Hv|]. intros o'. by apply (op_valid_ext c). }
  exists h2. split; [done|]. by eapply ext_trans.
Qed.

(** ** Building a map of fresh [QOSResourceTotal]s ([Clone], [QOSResourcesTotalFromInfo]) *)

Lemma for_each_ext {A} (l : list A) (f g : A → M unit) h :
  (∀ x h, f x h = g x h) → for_each l f h = for_each l g h.
Proof.
  intros Hfg. revert h. induction l as [|x l IH]; intros h; [done|].
  cbn [for_each]. unfold mbind, M_bind, bind. rewrite Hfg.
  destruct (g x h) as [[[] h1]|]; [apply IH|done].
Qed.

Lemma last_with_Some {A} (key : A → string) xs k x :
  last_with key xs k = Some x → x ∈ xs ∧ key x = k.
Proof.
  induction xs as [|y xs IH]; simpl; [done|].
  destruct (last_with key xs k) as [z|].
  - intros [= ->]. destruct (IH eq_refl). split; [by right|done].
  - case_decide; [|done]. intros [= ->]. split; [by left|done].
Qed.

Lemma last_with_None {A} (key : A → string) xs k :
  k ∉ key <$> xs → last_with key xs k = None.
Proof.
  induction xs as [|y xs IH]; simpl; [done|].
  rewrite not_elem_of_cons. intros [Hy Hxs]. rewrite (IH Hxs).
  by rewrite decide_False.
Qed.

Lemma last_with_NoDup {A} (key : A → string) xs x :
  NoDup (key <$> xs) → x ∈ xs → last_with key xs (key x) = Some x.
Proof.
  induction xs as [|y xs IH]; simpl.
  { by intros _ ?%elem_of_nil. }
  rewrite NoDup_cons. intros [Hy Hnd] [->|Hin]%elem_of_cons.
  - rewrite (last_with_None _ _ _ Hy). by rewrite decide_True.
  - by rewrite (IH Hnd Hin).
Qed.

Lemma fill_lookup {A} (key : A → string) (val : A → Z) l (m0 : gmap string Z) k :
  foldl (λ m x, <[key x := val x]> m) m0 l !! k =
  match last_with key l k with Some x => Some (val x) | None => m0 !! k end.
Proof.
  revert m0. induction l as [|x l IH]; intros m0; simpl; [done|].
  rewrite IH. destruct (last_with key l k); [done|].
  rewrite lookup_insert. by case_decide.
Qed.

Lemma fill_run {A} (key : A → string) (val : A → Z) (l : list A) h i im0 :
  inners h !! i = Some im0 →
  for_each l (λ x, inner_store (Some i) (key x) (val x)) h =
  Some ((), Heap (cells h) (outers h)
              (<[i := foldl (λ m x, <[key x := val x]> m) im0 l]> (inners h))).
Proof.
  revert h im0. induction l as [|x l IH]; intros h im0 Hi.
  { cbn [for_each foldl]. rewrite (insert_id _ _ _ Hi). by destruct h. }
  cbn [for_each foldl]. step (inner_store_eq _ (key x) (val x) _ _ Hi).
  erewrite IH; cbn [cells outers inners]; [|by rewrite lookup_insert_eq].
  by rewrite insert_insert_eq.
Qed.

Lemma wf_inner_set h i im :
  wf h → (∀ k a, im !! k = Some a → int64 a) →
  wf (Heap (cells h) (outers h) (<[i := im]> (inners h))).
Proof.
  intros Hwf Him. split; cbn [cells outers inners].
  - by eapply wf_cell.
  - intros o m k j Hm Hk. destruct (wf_outer _ Hwf _ _ _ _ Hm Hk) as [jm Hj].
    rewrite lookup_insert. case_decide; eauto.
  - by eapply wf_cell_own.
  - by eapply wf_outer_own.
  - intros j jm k a. rewrite lookup_insert. case_decide.
    + intros [= <-]. apply Him.
    + by eapply wf_amount.
Qed.

Lemma wf_linked h out mo k content :
  wf h → outers h !! out = Some mo → (∀ k a, content !! k = Some a → int64 a) →
  wf (linked h out mo k (fresh (dom (inners h))) content).
Proof.
  intros Hwf Hout Hcontent.
  pose proof (fresh_inner h) as Hfr. set (i := fresh (dom (inners h))) in *.
  pose proof (wf_inner_set h i content Hwf Hcontent) as Hwf1.
  apply (wf_outer_store _ out mo k i Hwf1 Hout).
  - cbn [inners]. rewrite lookup_insert_eq. eauto.
  - by apply (fresh_unref h).
Qed.

Lemma keeps_inners_refl h : keeps_inners h h.
Proof. by intros j _. Qed.

Lemma keeps_inners_trans h1 h2 h3 :
  keeps_inners h1 h2 → keeps_inners h2 h3 → keeps_inners h1 h3.
Proof.
  intros H12 H23 j Hj. rewrite <- (H12 j Hj). apply H23. by rewrite (H12 j Hj).
Qed.

Lemma keeps_inners_linked h out mo k content :
  keeps_inners h (linked h out mo k (fresh (dom (inners h))) content).
Proof.
  intros j [jm Hj]. cbn [linked inners]. rewrite lookup_insert_ne; [done|].
  intros <-. by rewrite fresh_inner in Hj.
Qed.

Lemma outer_entry_linked h out mo k content n cl :
  wf h → outers h !! out = Some mo →
  outer_entry (linked h out mo k (fresh (dom (inners h))) content)
    (<[k := Some (fresh (dom (inners h)))]> mo) n cl =
  if decide (n = k) then content !! cl else outer_entry h mo n cl.
Proof.
  intros Hwf Hout. unfold outer_entry. rewrite lookup_insert.
  destruct (decide (k = n)) as [->|Hne].
  - rewrite decide_True by done. unfold inner_entry. simpl. by rewrite lookup_insert_eq.
  - rewrite decide_False by done. destruct (mo !! n) as [[j|]|] eqn:Hn; [|done..].
    simpl. unfold inner_entry. simpl.
    destruct (wf_outer _ Hwf _ _ _ _ Hout Hn) as [jm Hj].
    rewrite lookup_insert_ne; [done|]. intros <-. by rewrite fresh_inner in Hj.
Qed.

Lemma link_loop {A} (key : A → string) (content : A → gmap string Z)
    (body : A → M unit) (out : positive) (xs : list A) h0 :
  (∀ x k a, x ∈ xs → content x !! k = Some a → int64 a) →
  (∀ x h mo, x ∈ xs → wf h → keeps_inners h0 h → outers h !! out = Some mo →
     body x h = Some ((), linked h out mo (key x) (fresh (dom (inners h))) (content x))) →
  ∀ h mo, wf h → keeps_inners h0 h → outers h !! out = Some mo →
  ∃ h' mo', for_each xs body h = Some ((), h') ∧ wf h' ∧ cells h' = cells h ∧
    (∀ o, o ≠ out → outers h' !! o = outers h !! o) ∧ keeps_inners h h' ∧
    outers h' !! out = Some mo' ∧
    ∀ n k, outer_entry h' mo' n k =
      match last_with key xs n with
      | Some x => content x !! k
      | None => outer_entry h mo n k
      end.
Proof.
  induction xs as [|x xs IH]; intros Hcontent Hbody h mo Hwf Hkeep Hout.
  { exists h, mo. split; [done|]. split; [done|]. split; [done|]. split; [done|].
    split; [apply keeps_inners_refl|]. done. }
  pose proof (Hbody x h mo ltac:(left) Hwf Hkeep Hout) as Hrun1.
  set (h1 := linked h out mo (key x) (fresh (dom (inners h))) (content x)) in *.
  assert (wf h1) as Hwf1.
  { apply wf_linked; [done..|]. intros k a. apply Hcontent. by left. }
  assert (keeps_inners h h1) as Hkeep1 by apply keeps_inners_linked.
  assert (outers h1 !! out = Some (<[key x := Some (fresh (dom (inners h)))]> mo)) as Hout1.
  { unfold h1, linked. cbn [outers]. by rewrite lookup_insert_eq. }
  destruct (IH ltac:(intros ????; apply Hcontent; by right)
              ltac:(intros ????; apply Hbody; by right)
              h1 _ Hwf1 (keeps_inners_trans _ _ _ Hkeep Hkeep1) Hout1)
    as (h' & mo' & Hrun & Hwf' & Hcells & Houters & Hkeep' & Hout' & Hent).
  cbn [for_each]. step Hrun1. exists h', mo'.
  split; [done|]. split; [done|]. split; [done|]. split.
  { intros o Ho. rewrite (Houters o Ho). unfold h1, linked. cbn [outers].
    by rewrite lookup_insert_ne. }
  split; [by eapply keeps_inners_trans|]. split; [done|].
  intros n k. rewrite Hent. cbn [last_with].
  destruct (last_with key xs n); [done|].
  unfold h1. rewrite (outer_entry_linked _ _ _ _ _ _ _ Hwf Hout).
  repeat case_decide; congruence.
Qed.

Lemma wf_outer_alloc h o :
  wf h → outers h !! o = None →
  wf (Heap (cells h) (<[o := ∅]> (outers h)) (inners h)).
Proof.
  intros Hwf Ho. split; cbn [cells outers inners].
  - intros c o' Hc. destruct (wf_cell _ Hwf _ _ Hc) as [m Hm].
    rewrite lookup_insert. case_decide; eauto.
  - intros o1 m k i. rewrite lookup_insert. case_decide.
    + intros [= <-]. by rewrite lookup_empty.
    + by eapply wf_outer.
  - by eapply wf_cell_own.
  - intros o1 o2 m1 m2 k1 k2 i. rewrite !lookup_insert.
    repeat case_decide; subst.
    + intros [= <-]. by rewrite lookup_empty.
    + intros [= <-]. by rewrite lookup_empty.
    + intros _ [= <-]. by rewrite lookup_empty.
    + by eapply wf_outer_own.
  - by eapply wf_amount.
Qed.

Lemma wf_new_var h o :
  wf h → is_Some (outers h !! o) → (∀ c, cells h !! c ≠ Some (Some o)) →
  wf (Heap (<[fresh (dom (cells h)) := Some o]> (cells h)) (outers h) (inners h)).
Proof.
  intros Hwf Ho Hun. split; cbn [cells outers inners].
  - intros c o'. rewrite lookup_insert. case_decide.
    + by intros [= <-].
    + by eapply wf_cell.
  - by eapply wf_outer.
  - intros c1 c2 o'. rewrite !lookup_insert. repeat case_decide; subst; try done.
    + intros [= <-] Hc2. by destruct (Hun c2).
    + intros Hc1 [= <-]. by destruct (Hun c1).
    + by eapply wf_cell_own.
  - by eapply wf_outer_own.
  - by eapply wf_amount.
Qed.

Lemma entry_same h h' c n k :
  wf h → cells h' !! c = cells h !! c →
  (∀ o, cells h !! c = Some (Some o) → outers h' !! o = outers h !! o) →
  keeps_inners h h' →
  entry h' (Some c) n k = entry h (Some c) n k.
Proof.
  intros Hwf Hc Ho Hi. unfold entry. simpl. rewrite Hc.
  destruct (cells h !! c) as [[o|]|] eqn:Ec; simpl; [|done..].
  rewrite (Ho o eq_refl).
  destruct (outers h !! o) as [m|] eqn:Em; simpl; [|done].
  destruct (m !! n) as [[i|]|] eqn:En; simpl; [|done..].
  by rewrite (Hi i (wf_outer _ Hwf _ _ _ _ Em En)).
Qed.

Lemma fill_map_to_list (jm : gmap string Z) :
  foldl (λ m (x : string * Z), <[x.1 := x.2]> m) ∅ (map_to_list jm) = jm.
Proof.
  apply map_eq. intros k. rewrite fill_lookup, lookup_empty.
  destruct (jm !! k) as [a|] eqn:Hk.
  - apply elem_of_map_to_list in Hk.
    pose proof (last_with_NoDup fst _ (k, a) (NoDup_fst_map_to_list jm) Hk) as Hl.
    simpl in Hl. by rewrite Hl.
  - rewrite last_with_None; [done|]. intros [[k' a] [-> Hin]]%list_elem_of_fmap.
    apply elem_of_map_to_list in Hin. simpl in Hk. congruence.
Qed.

(** ** [Clone] *)

Lemma clone_body_run h0 out k (t : option positive) h mo :
  wf h → keeps_inners h0 h → outers h !! out = Some mo →
  (∀ j, t = Some j → is_Some (inners h0 !! j)) →
  (classes ← make_inner;
   ies ← inner_range t;
   for_each ies (λ '(cl, amount), inner_store classes cl amount) ;;
   outer_store (Some out) k classes) h =
  Some ((), linked h out mo k (fresh (dom (inners h)))
              (default ∅ (t ≫= λ j, inners h0 !! j))).
Proof.
  intros Hwf Hkeep Hout Ht.
  pose proof (fresh_inner h) as Hfr. set (i := fresh (dom (inners h))) in *.
  set (h1 := Heap (cells h) (outers h) (<[i := ∅]> (inners h))).
  assert (make_inner h = Some (Some i, h1)) as Hmk by done.
  step Hmk.
  assert (inner_range t h1 = Some (map_to_list (default ∅ (t ≫= λ j, inners h0 !! j)), h1))
    as Hrange.
  { destruct t as [j|]; [|simpl; by rewrite map_to_list_empty].
    destruct (Ht j eq_refl) as [jm Hj].
    change (default ∅ (Some j ≫= λ j, inners h0 !! j)) with (default ∅ (inners h0 !! j)).
    rewrite Hj. apply inner_range_eq. unfold h1. cbn [inners default from_option id].
    change (default ∅ (Some jm)) with jm.
    rewrite lookup_insert_ne; [by rewrite (Hkeep j) by eauto|].
    intros Heq. rewrite Heq, (Hkeep j) in Hfr by eauto. congruence. }
  step Hrange.
  assert (inners h1 !! i = Some ∅) as Hi1.
  { unfold h1. cbn [inners]. by rewrite lookup_insert_eq. }
  erewrite bind_run.
  2:{ rewrite (for_each_ext _ _ (λ x, inner_store (Some i) x.1 x.2)).
      - by apply fill_run.
      - by intros [??] ?. }
  rewrite fill_map_to_list. unfold h1. cbn [cells outers inners].
  rewrite insert_insert_eq.
  by erewrite outer_store_eq by exact Hout.
Qed.

Lemma Clone_spec h c :
  wf h → is_Some (cells h !! c) →
  ∃ p h', Clone (Some c) h = Some (Some p, h') ∧ wf h' ∧
    cells h !! p = None ∧ is_Some (cells h' !! p) ∧
    (∀ c', is_Some (cells h !! c') → is_Some (cells h' !! c')) ∧
    (∀ c' n k, is_Some (cells h !! c') →
       entry h' (Some c') n k = entry h (Some c') n k) ∧
    (∀ n k, entry h' (Some p) n k = entry h (Some c) n k).
Proof.
  intros Hwf [v Hc]. unfold Clone. step (deref_eq _ _ _ Hc).
  pose proof (fresh_outer h) as Hfr. set (o := fresh (dom (outers h))) in *.
  pose proof (wf_outer_alloc _ _ Hwf Hfr) as Hwf1.
  set (h1 := Heap (cells h) (<[o := ∅]> (outers h)) (inners h)) in *.
  assert (make_outer h = Some (Some o, h1)) as Hmk by done.
  step Hmk.
  assert (∀ c' o', cells h !! c' = Some (Some o') → o' ≠ o) as Hold.
  { intros c' o' Hc' ->. destruct (wf_cell _ Hwf _ _ Hc') as [? ?]. congruence. }
  assert (∃ es : list (string * option positive),
    outer_range v h1 = Some (es, h1) ∧ NoDup (fst <$> es) ∧
    (∀ k j, (k, Some j) ∈ es → is_Some (inners h !! j)) ∧
    ∀ n k, entry h (Some c) n k =
      match last_with fst es n with
      | Some x => default ∅ (x.2 ≫= λ j, inners h !! j) !! k
      | None => None
      end) as (es & Hrange & Hnd & Hal & Hsrc).
  { destruct v as [os|].
    - destruct (wf_cell _ Hwf _ _ Hc) as [m Hm]. exists (map_to_list m).
      split; [|split; [apply NoDup_fst_map_to_list|split]].
      + apply outer_range_eq. unfold h1. cbn [outers].
        rewrite lookup_insert_ne; [done|]. by apply not_eq_sym, (Hold c).
      + intros k j Hin%elem_of_map_to_list. by eapply wf_outer.
      + intros n k. rewrite (entry_inner _ _ _ _ n k Hc Hm).
        destruct (m !! n) as [t|] eqn:Hn.
        * pose proof (last_with_NoDup fst _ (n, t) (NoDup_fst_map_to_list m)
                        ltac:(by apply elem_of_map_to_list)) as Hl.
          simpl in Hl. rewrite Hl. simpl. destruct t as [j|]; [|done].
          unfold inner_entry. simpl. by destruct (inners h !! j).
        * rewrite last_with_None; [done|].
          intros [[n' t] [-> Hin]]%list_elem_of_fmap.
          apply elem_of_map_to_list in Hin. simpl in Hn. congruence.
    - exists []. split; [done|]. split; [constructor|]. split.
      + by intros ?? ?%elem_of_nil.
      + intros n k. by rewrite (entry_nil _ _ _ _ Hc). }
  step Hrange.
  assert (outers h1 !! o = Some ∅) as Hout1.
  { unfold h1. cbn [outers]. by rewrite lookup_insert_eq. }
  destruct (link_loop fst (λ x, default ∅ (x.2 ≫= λ j, inners h !! j))
              (λ '(k, t),
                 classes ← make_inner;
                 ies ← inner_range t;
                 for_each ies (λ '(cl, amount), inner_store classes cl amount) ;;
                 outer_store (Some o) k classes)
              o es h1) with (h := h1) (mo := (∅ : gmap string (option positive)))
    as (h2 & mo2 & Hrun2 & Hwf2 & Hcells2 & Houters2 & Hkeep2 & Hout2 & Hent2).
  { intros [n t] k a Hin. cbn [snd]. destruct t as [j|]; [|done].
    change (Some j ≫= λ j, inners h !! j) with (inners h !! j).
    destruct (inners h !! j) as [jm|] eqn:Hj; [|done].
    by eapply wf_amount. }
  { intros [n t] h' mo' Hin Hwf' Hkeep' Hout'. cbv beta iota. cbn [fst snd].
    apply (clone_body_run h1); [done..|]. intros j Ht. subst t. by apply (Hal n). }
  { done. }
  { apply keeps_inners_refl. }
  { done. }
  step Hrun2.
  set (p := fresh (dom (cells h2))).
  assert (cells h !! p = None) as Hp.
  { unfold p. rewrite Hcells2. exact (fresh_cell h). }
  assert (new_var (Some o) h2 =
          Some (p, Heap (<[p := Some o]> (cells h2)) (outers h2) (inners h2))) as Hnew by done.
  step Hnew. eexists p, _. split; [done|].
  split; [|split; [done|split; [|split; [|split]]]].
  - apply wf_new_var; [done|eauto|]. intros c'. rewrite Hcells2. cbn [cells].
    intros Hc'. by destruct (Hold _ _ Hc').
  - cbn [cells]. rewrite lookup_insert_eq. eauto.
  - intros c' Hc'. cbn [cells]. rewrite lookup_insert_ne; [by rewrite Hcells2|].
    intros <-. rewrite Hp in Hc'. by destruct Hc'.
  - intros c' n k Hc'. apply entry_same; [done|..].
    + cbn [cells]. rewrite lookup_insert_ne; [by rewrite Hcells2|].
      intros <-. rewrite Hp in Hc'. by destruct Hc'.
    + intros o' Ho'. cbn [outers]. rewrite Houters2 by (by apply (Hold c')).
      unfold h1. cbn [outers]. rewrite lookup_insert_ne; [done|].
      by apply not_eq_sym, (Hold c').
    + intros j Hj. cbn [inners]. by rewrite (Hkeep2 j Hj).
  - intros n k. erewrite entry_inner; cbn [cells outers inners];
      [|by rewrite lookup_insert_eq|done].
    fold (outer_entry h2 mo2 n k) in *.
    assert (∀ t, inner_entry (Heap (<[p := Some o]> (cells h2)) (outers h2) (inners h2)) t k
                 = inner_entry h2 t k) as Hie by done.
    transitivity (outer_entry h2 mo2 n k).
    { unfold outer_entry. destruct (mo2 !! n); [apply Hie|done]. }
    rewrite Hent2, Hsrc. destruct (last_with fst es n); [done|].
    unfold outer_entry. by rewrite lookup_empty.
Qed.

(** ** [QOSResourcesTotalFromInfo] *)

Lemma info_body_run out qr h mo :
  outers h !! out = Some mo →
  (classes ← make_inner;
   for_each (info_Classes qr)
     (λ cl, inner_store classes (cls_Name cl) (cls_Capacity cl)) ;;
   outer_store (Some out) (info_Name qr) classes) h =
  Some ((), linked h out mo (info_Name qr) (fresh (dom (inners h)))
              (foldl (λ m cl, <[cls_Name cl := cls_Capacity cl]> m) ∅ (info_Classes qr))).
Proof.
  intros Hout. set (i := fresh (dom (inners h))).
  set (h1 := Heap (cells h) (outers h) (<[i := ∅]> (inners h))).
  assert (make_inner h = Some (Some i, h1)) as Hmk by done.
  step Hmk.
  assert (inners h1 !! i = Some ∅) as Hi1.
  { unfold h1. cbn [inners]. by rewrite lookup_insert_eq. }
  step (fill_run cls_Name cls_Capacity (info_Classes qr) h1 i ∅ Hi1).
  unfold h1. cbn [cells outers inners]. rewrite insert_insert_eq.
  by erewrite outer_store_eq by exact Hout.
Qed.

Lemma QOSResourcesTotalFromInfo_spec infos h :
  wf h → Forall int64_info infos →
  ∃ o h' mo, QOSResourcesTotalFromInfo infos h = Some (Some o, h') ∧ wf h' ∧
    cells h' = cells h ∧ outers h !! o = None ∧ outers h' !! o = Some mo ∧
    ∀ n k, outer_entry h' mo n k = advertised infos n k.
Proof.
  intros Hwf Hint. unfold QOSResourcesTotalFromInfo.
  pose proof (fresh_outer h) as Hfr. set (o := fresh (dom (outers h))) in *.
  pose proof (wf_outer_alloc _ _ Hwf Hfr) as Hwf1.
  set (h1 := Heap (cells h) (<[o := ∅]> (outers h)) (inners h)) in *.
  assert (make_outer h = Some (Some o, h1)) as Hmk by done.
  step Hmk.
  assert (outers h1 !! o = Some ∅) as Hout1.
  { unfold h1. cbn [outers]. by rewrite lookup_insert_eq. }
  destruct (link_loop info_Name
              (λ qr, foldl (λ m cl, <[cls_Name cl := cls_Capacity cl]> m) ∅ (info_Classes qr))
              (λ qr,
                 classes ← make_inner;
                 for_each (info_Classes qr)
                   (λ cl, inner_store classes (cls_Name cl) (cls_Capacity cl)) ;;
                 outer_store (Some o) (info_Name qr) classes)
              o infos h1) with (h := h1) (mo := (∅ : gmap string (option positive)))
    as (h2 & mo2 & Hrun2 & Hwf2 & Hcells2 & Houters2 & Hkeep2 & Hout2 & Hent2).
  { intros qr k a Hin. rewrite fill_lookup, lookup_empty.
    destruct (last_with cls_Name (info_Classes qr) k) as [cl|] eqn:Hl; [|done].
    intros [= <-]. apply last_with_Some in Hl as [Hcl _].
    rewrite Forall_forall in Hint. specialize (Hint qr Hin).
    unfold int64_info in Hint. rewrite Forall_forall in Hint. by apply Hint. }
  { intros qr h' mo' _ _ _ Hout'. by apply info_body_run. }
  { done. }
  { apply keeps_inners_refl. }
  { done. }
  step Hrun2. exists o, h2, mo2. split; [done|]. split; [done|].
  split; [done|]. split; [done|]. split; [done|].
  intros n k. rewrite Hent2. unfold advertised, resource_classes, class_capacity.
  destruct (last_with info_Name infos n) as [qr|]; simpl.
  - rewrite fill_lookup, lookup_empty.
    by destruct (last_with cls_Name (info_Classes qr) k).
  - unfold outer_entry. by rewrite lookup_empty.
Qed.

(** ** [PodQOSResourceRequests] *)

Lemma make_ledger h :
  wf h →
  ∃ o p h1 h2, make_outer h = Some (Some o, h1) ∧ new_var (Some o) h1 = Some (p, h2) ∧
    wf h2 ∧ cells h !! p = None ∧ is_Some (cells h2 !! p) ∧
    (∀ c', is_Some (cells h !! c') → is_Some (cells h2 !! c')) ∧
    (∀ n k, entry h2 (Some p) n k = None) ∧
    ∀ c' n k, is_Some (cells h !! c') → entry h2 (Some c') n k = entry h (Some c') n k.
Proof.
  intros Hwf.
  pose proof (fresh_outer h) as Hfr. set (o := fresh (dom (outers h))) in *.
  pose proof (wf_outer_alloc _ _ Hwf Hfr) as Hwf1.
  set (h1 := Heap (cells h) (<[o := ∅]> (outers h)) (inners h)) in *.
  pose proof (fresh_cell h) as Hp. set (p := fresh (dom (cells h))) in *.
  assert (∀ c' o', cells h !! c' = Some (Some o') → o' ≠ o) as Hold.
  { intros c' o' Hc' ->. destruct (wf_cell _ Hwf _ _ Hc') as [? ?]. congruence. }
  exists o, p, h1, (Heap (<[p := Some o]> (cells h)) (<[o := ∅]> (outers h)) (inners h)).
  split; [done|]. split; [done|]. split; [|split; [done|split; [|split; [|split]]]].
  - apply (wf_new_var h1 o Hwf1).
    + unfold h1. cbn [outers]. rewrite lookup_insert_eq. eauto.
    + intros c' Hc'. by destruct (Hold _ _ Hc').
  - cbn [cells]. rewrite lookup_insert_eq. eauto.
  - intros c' Hc'. cbn [cells]. rewrite lookup_insert_ne; [done|].
    intros <-. rewrite Hp in Hc'. by destruct Hc'.
  - intros n k. eapply entry_absent; cbn [cells outers];
      [by rewrite lookup_insert_eq..|]. by rewrite lookup_empty.
  - intros c' n k Hc'. apply entry_same; [done|..].
    + cbn [cells]. rewrite lookup_insert_ne; [done|].
      intros <-. rewrite Hp in Hc'. by destruct Hc'.
    + intros o' Ho'. cbn [outers]. rewrite lookup_insert_ne; [done|].
      by apply not_eq_sym, (Hold c').
    + by intros j _.
Qed.

Lemma containers_spec h c (cs : list Container) :
  wf h → is_Some (cells h !! c) →
  ∃ h', for_each cs (λ container,
          AddContainerQOSResources (Some c) (ctr_QOSResources container)) h = Some ((), h') ∧
    ext c h h' ∧
    ∀ n k, entry h' (Some c) n k =
      bump (occurrences n k (container_pairs cs)) (entry h (Some c) n k).
Proof.
  revert h. induction cs as [|ctr cs IH]; intros h Hwf Hc.
  { exists h. split; [done|]. split; [by apply ext_refl|]. done. }
  destruct (AddContainerQOSResources_spec h c (ctr_QOSResources ctr) Hwf Hc)
    as (h1 & Hrun1 & Hext1 & Hent1).
  cbn [for_each]. step Hrun1.
  destruct (IH h1 (ext_wf _ _ _ Hext1) (ext_valid _ _ _ (Some c) Hext1 Hc))
    as (h2 & Hrun2 & Hext2 & Hent2).
  exists h2. split; [done|]. split; [by eapply ext_trans|].
  intros n k. rewrite Hent2, Hent1, bump_bump. unfold container_pairs.
  cbn [fmap list_fmap concat]. by rewrite occurrences_app.
Qed.

Lemma init_containers_spec h c (cs : list Container) :
  wf h → is_Some (cells h !! c) →
  ∃ h', for_each cs (λ container,
          SetMaxContainerQOSResources (Some c) (ctr_QOSResources container)) h = Some ((), h') ∧
    ext c h h' ∧
    ∀ n k, entry h' (Some c) n k =
      if decide ((n, k) ∈ container_pairs cs)
      then floor_one (entry h (Some c) n k)
      else entry h (Some c) n k.
Proof.
  revert h. induction cs as [|ctr cs IH]; intros h Hwf Hc.
  { exists h. split; [done|]. split; [by apply ext_refl|].
    intros n k. rewrite decide_False; [done|]. by intros ?%elem_of_nil. }
  destruct (SetMaxContainerQOSResources_spec h c (ctr_QOSResources ctr) Hwf Hc)
    as (h1 & Hrun1 & Hext1 & Hent1).
  cbn [for_each]. step Hrun1.
  destruct (IH h1 (ext_wf _ _ _ Hext1) (ext_valid _ _ _ (Some c) Hext1 Hc))
    as (h2 & Hrun2 & Hext2 & Hent2).
  exists h2. split; [done|]. split; [by eapply ext_trans|].
  intros n k. rewrite Hent2, Hent1. unfold container_pairs.
  cbn [fmap list_fmap concat]. fold (container_pairs cs).
  rewrite (decide_ext _ _ _ _ (elem_of_app _ _ _)).
  repeat case_decide; try rewrite floor_one_idemp; naive_solver.
Qed.

Lemma PodQOSResourceRequests_spec pod h :
  wf h →
  ∃ p q h', PodQOSResourceRequests pod h = Some ((p, q), h') ∧ wf h' ∧ p ≠ q ∧
    cells h !! p = None ∧ cells h !! q = None ∧
    is_Some (cells h' !! p) ∧ is_Some (cells h' !! q) ∧
    ∀ n k,
      entry h' (Some p) n k =
        bump (occurrences n k (pod_request_pairs (pod_QOSResources pod))) None ∧
      entry h' (Some q) n k =
        let e := bump (occurrences n k (container_pairs (pod_Containers pod))) None in
        if decide ((n, k) ∈ container_pairs (pod_InitContainers pod))
        then floor_one e else e.
Proof.
  intros Hwf. unfold PodQOSResourceRequests.
  destruct (make_ledger h Hwf)
    as (o1 & p & h1 & h2 & Hmk1 & Hnew1 & Hwf2 & Hp & Hp2 & Hval2 & Hep & _).
  step Hmk1. step Hnew1.
  destruct (make_ledger h2 Hwf2)
    as (o2 & q & h3 & h4 & Hmk2 & Hnew2 & Hwf4 & Hq & Hq4 & Hval4 & Heq & Hold4).
  step Hmk2. step Hnew2.
  assert (p ≠ q) as Hpq.
  { intros <-. rewrite Hq in Hp2. by destruct Hp2. }
  pose proof (Hval4 p Hp2) as Hp4.
  destruct (AddPodQOSResources_spec h4 p (pod_QOSResources pod) Hwf4 Hp4)
    as (h5 & Hrun5 & Hext5 & Hent5).
  step Hrun5.
  destruct (containers_spec h5 q (pod_Containers pod) (ext_wf _ _ _ Hext5)
              (ext_valid _ _ _ (Some q) Hext5 Hq4)) as (h6 & Hrun6 & Hext6 & Hent6).
  step Hrun6.
  destruct (init_containers_spec h6 q (pod_InitContainers pod) (ext_wf _ _ _ Hext6)
              (ext_valid _ _ _ (Some q) Hext6 (ext_valid _ _ _ (Some q) Hext5 Hq4)))
    as (h7 & Hrun7 & Hext7 & Hent7).
  step Hrun7. exists p, q, h7. split; [done|].
  split; [by eapply ext_wf|]. split; [done|]. split; [done|].
  split.
  { destruct (cells h !! q) eqn:Hq0; [|done].
    destruct (Hval2 q ltac:(eauto)) as [? Hq2]. congruence. }
  split.
  { apply (ext_valid _ _ _ (Some p) Hext7), (ext_valid _ _ _ (Some p) Hext6),
      (ext_valid _ _ _ (Some p) Hext5), Hp4. }
  split.
  { apply (ext_valid _ _ _ (Some q) Hext7), (ext_valid _ _ _ (Some q) Hext6),
      (ext_valid _ _ _ (Some q) Hext5), Hq4. }
  intros n k. split.
  - rewrite (ext_entry _ _ _ p n k Hext7 Hpq), (ext_entry _ _ _ p n k Hext6 Hpq).
    rewrite Hent5. by rewrite (Hold4 p n k Hp2), Hep.
  - cbv zeta. rewrite Hent7, Hent6.
    rewrite (ext_entry _ _ _ q n k Hext5 (not_eq_sym Hpq)). by rewrite Heq.
Qed.

(** ** Results of programs *)

Lemma result_seq {A} (m : M unit) (k : M A) h h' :
  m h = Some ((), h') → result (m ;; k) h = result k h'.
Proof. intros Hm. unfold result. by rewrite (bind_run _ _ _ _ _ Hm). Qed.

Lemma result_bind {A B} (m : M A) (k : A → M B) h x h' :
  m h = Some (x, h') → result (m ≫= k) h = result (k x) h'.
Proof. intros Hm. unfold result. by rewrite (bind_run _ _ _ _ _ Hm). Qed.

Lemma result_GetAmount h r n k :
  wf h → valid h r → result (GetAmount r n k) h = Some (found (entry h r n k)).
Proof. intros Hwf Hv. unfold result. by rewrite GetAmount_entry. Qed.

Lemma entry_int64 h r n k a : wf h → entry h r n k = Some a → int64 a.
Proof.
  intros Hwf He. destruct r as [c|]; [|done].
  apply entry_Some in He as (o & m & i & im & _ & _ & _ & Hi & Hk).
  by eapply wf_amount.
Qed.

Lemma int64_0 : int64 0.
Proof. unfold int64. lia. Qed.

Lemma entry_default_int64 h r n k : wf h → int64 (default 0 (entry h r n k)).
Proof.
  intros Hwf. destruct (entry h r n k) as [a|] eqn:He; simpl.
  - by eapply entry_int64.
  - apply int64_0.
Qed.

(** ** Sample stores are well formed *)

Lemma wf_unset (cs : gmap positive (option positive)) :
  (∀ c v, cs !! c = Some v → v = None) → wf (Heap cs ∅ ∅).
Proof.
  intros Hcs. split; cbn [cells outers inners].
  - intros c o Hc. by specialize (Hcs _ _ Hc).
  - intros o m k i. by rewrite lookup_empty.
  - intros c1 c2 o Hc. by specialize (Hcs _ _ Hc).
  - intros o1 o2 m1 m2 k1 k2 i. by rewrite lookup_empty.
  - intros i im k a. by rewrite lookup_empty.
Qed.

Lemma wf_empty_heap : wf empty_heap.
Proof. apply wf_unset. intros c v. by rewrite lookup_empty. Qed.

Lemma wf_unset_heap : wf unset_heap.
Proof. apply wf_unset. intros c v [_ <-]%lookup_singleton_Some. done. Qed.

Lemma wf_gpu_heap a : int64 a → wf (gpu_heap a).
Proof.
  intros Ha. split; unfold gpu_heap; cbn [cells outers inners].
  - intros c o [_ [= <-]]%lookup_singleton_Some. rewrite lookup_singleton_eq. eauto.
  - intros o m k i [_ <-]%lookup_singleton_Some [_ [= <-]]%lookup_singleton_Some.
    rewrite lookup_singleton_eq. eauto.
  - intros c1 c2 o [<- _]%lookup_singleton_Some [<- _]%lookup_singleton_Some. done.
  - intros o1 o2 m1 m2 k1 k2 i [<- <-]%lookup_singleton_Some [<- <-]%lookup_singleton_Some.
    intros [<- _]%lookup_singleton_Some [<- _]%lookup_singleton_Some. done.
  - intros i im k b [_ <-]%lookup_singleton_Some [_ <-]%lookup_singleton_Some. done.
Qed.


Lemma wf_pair_heap a b : int64 a → int64 b → wf (pair_heap a b).
Proof.
  intros Ha Hb. split; unfold pair_heap; cbn [cells outers inners]; intros *;
    rewrite ?lookup_insert_Some, ?lookup_singleton_Some;
    try (intros; destruct_and?; destruct_or?; destruct_and?; simplify_eq;
         rewrite ?lookup_insert_Some, ?lookup_singleton_Some in *;
         repeat (destruct_and? || destruct_or?); simplify_eq; eauto; fail).
  all: naive_solver.
Qed.

(** ** The scenarios of the specification, run on the model *)

(** Three regular containers request (gpu, fast), an init container does
    too: the sum stays. *)
Example scenario_containers_sum :
  result ('(_, containerReqs) ← PodQOSResourceRequests sample_pod;
          GetAmount (Some containerReqs) "gpu" "fast") empty_heap = Some (true, 3).
Proof. vm_compute. reflexivity. Qed.

(** No regular container requests (net, slow), two init containers do. *)
Example scenario_init_only :
  result ('(_, containerReqs) ← PodQOSResourceRequests sample_pod;
          GetAmount (Some containerReqs) "net" "slow") empty_heap = Some (true, 1).
Proof. vm_compute. reflexivity. Qed.

(** Pod-level requests [(gpu, fast), (gpu, fast)]. *)
Example scenario_pod_duplicates :
  result ('(podReqs, _) ← PodQOSResourceRequests sample_pod;
          x ← GetAmount (Some podReqs) "gpu" "fast";
          y ← GetAmount (Some podReqs) "net" "slow";
          ret (x, y)) empty_heap = Some ((true, 2), (false, 0)).
Proof. vm_compute. reflexivity. Qed.

(** Capacity info [gpu: fast 8, slow 16]. *)
Example scenario_capacity :
  result (m ← QOSResourcesTotalFromInfo [Info "gpu" [ClassInfo "fast" 8; ClassInfo "slow" 16]];
          t ← new_var m;
          x ← GetAmount (Some t) "gpu" "fast";
          y ← GetAmount (Some t) "gpu" "slow";
          z ← GetAmount (Some t) "gpu" "best";
          ret (x, y, z)) empty_heap = Some ((true, 8), (true, 16), (false, 0)).
Proof. vm_compute. reflexivity. Qed.

(** After [add(r, c, n)] on an unset ledger, [GetAmount(r, c)] is (true, n). *)
Example scenario_add :
  result (add (Some 1%positive) "gpu" "fast" 7 ;;
          GetAmount (Some 1%positive) "gpu" "fast") unset_heap = Some (true, 7).
Proof. vm_compute. reflexivity. Qed.

(** Adding a ledger and subtracting it again; the clone taken in between
    keeps the sum. *)
Example scenario_sum_clone :
  result (Sum (Some 1%positive) (Some 2%positive) true ;;
          x ← GetAmount (Some 1%positive) "gpu" "fast";
          p ← Clone (Some 1%positive);
          Sum (Some 1%positive) (Some 2%positive) false ;;
          y ← GetAmount (Some 1%positive) "gpu" "fast";
          z ← GetAmount p "gpu" "fast";
          ret (x, y, z)) (pair_heap 5 3) = Some ((true, 8), (true, 5), (true, 8)).
Proof. vm_compute. reflexivity. Qed.

(** Adding a ledger to itself doubles it, and subtracting it from itself
    then leaves 0: the inverse law is about two ledgers. *)
Example scenario_sum_self :
  result (Sum (Some 1%positive) (Some 1%positive) true ;;
          x ← GetAmount (Some 1%positive) "gpu" "fast";
          Sum (Some 1%positive) (Some 1%positive) false ;;
          y ← GetAmount (Some 1%positive) "gpu" "fast";
          ret (x, y)) (pair_heap 5 3) = Some ((true, 10), (true, 0)).
Proof. vm_compute. reflexivity. Qed.

(** * The claims *)

(** ** C1: the init-container merge step *)

(** C1, as stated, fails: an entry that exists with amount 0 is not left
    untouched.  A ledger gets the entry (gpu, fast) = 1 from another one and
    loses it again, so the entry is present with amount 0; an init-container
    request for (gpu, fast) then raises it to 1. *)
Lemma C1_zero_entry_is_raised :
  result (r ← zero_ledger;
          x ← GetAmount r "gpu" "fast";
          SetMaxContainerQOSResources r [Request "gpu" "fast"] ;;
          y ← GetAmount r "gpu" "fast";
          ret (x, y)) empty_heap
  = Some ((true, 0), (true, 1)).
Proof. vm_compute. reflexivity. Qed.

(** C1, amended: for every receiver ledger and every pair (name, class) of
    the init-container request list, [SetMaxContainerQOSResources] sets the
    amount to 1 when the ledger has no entry for the pair or has one of
    amount 0, and leaves an entry of any other amount untouched; the pairs
    that are not in the list keep what [GetAmount] returned for them. *)
Theorem C1_set_max_floor h c qrl n k :
  wf h → is_Some (cells h !! c) →
  ∃ b a after,
    result (GetAmount (Some c) n k) h = Some (b, a) ∧
    result (SetMaxContainerQOSResources (Some c) qrl ;; GetAmount (Some c) n k) h
      = Some after ∧
    ((n, k) ∈ request_pairs qrl → b = false ∨ a = 0 → after = (true, 1)) ∧
    ((n, k) ∈ request_pairs qrl → b = true → a ≠ 0 → after = (true, a)) ∧
    ((n, k) ∉ request_pairs qrl → after = (b, a)).
Proof.
  intros Hwf Hc.
  destruct (SetMaxContainerQOSResources_spec h c qrl Hwf Hc) as (h' & Hrun & Hext & Hent).
  exists (found (entry h (Some c) n k)).1, (found (entry h (Some c) n k)).2,
         (found (entry h' (Some c) n k)).
  split; [rewrite result_GetAmount by done; by destruct (found _)|].
  split.
  { rewrite (result_seq _ _ _ _ Hrun).
    apply result_GetAmount; [by eapply ext_wf|]. by apply (ext_valid _ _ _ (Some c) Hext). }
  rewrite Hent. destruct (entry h (Some c) n k) as [x|]; simpl.
  - split; [|split].
    + intros Hin [?| ->]; [done|]. by rewrite decide_True.
    + intros Hin _ Hx. rewrite decide_True by done.
      destruct (x =? 0) eqn:E; [|done]. by apply Z.eqb_eq in E.
    + intros Hin. by rewrite decide_False.
  - split; [|split].
    + intros Hin _. by rewrite decide_True.
    + done.
    + intros Hin. by rewrite decide_False.
Qed.

(** C1, amended, at a ledger whose entry (gpu, fast) has amount 0. *)
Lemma C1_set_max_floor_witness :
  wf (gpu_heap 0) ∧ is_Some (cells (gpu_heap 0) !! 1%positive) ∧
  ∃ b a after,
    result (GetAmount (Some 1%positive) "gpu" "fast") (gpu_heap 0) = Some (b, a) ∧
    result (SetMaxContainerQOSResources (Some 1%positive) [Request "gpu" "fast"] ;;
            GetAmount (Some 1%positive) "gpu" "fast") (gpu_heap 0) = Some after ∧
    (("gpu", "fast") ∈ request_pairs [Request "gpu" "fast"] →
       b = false ∨ a = 0 → after = (true, 1)) ∧
    (("gpu", "fast") ∈ request_pairs [Request "gpu" "fast"] →
       b = true → a ≠ 0 → after = (true, a)) ∧
    (("gpu", "fast") ∉ request_pairs [Request "gpu" "fast"] → after = (b, a)).
Proof.
  assert (wf (gpu_heap 0)) as Hwf by (apply wf_gpu_heap, int64_0).
  assert (is_Some (cells (gpu_heap 0) !! 1%positive)) as Hc by (vm_compute; eauto).
  split; [exact Hwf|]. split; [exact Hc|].
  exact (C1_set_max_floor (gpu_heap 0) 1%positive [Request "gpu" "fast"] "gpu" "fast" Hwf Hc).
Defined.

(** ** C2, C7, C9: the ledgers of [PodQOSResourceRequests] *)

Lemma occurrences_le n k l : (occurrences n k l ≤ length l)%nat.
Proof. induction l as [|p l IH]; simpl; [lia|]. case_decide; lia. Qed.

Lemma bump_small cnt :
  Z.of_nat cnt < 2 ^ 63 →
  bump cnt None = if decide (cnt = 0%nat) then None else Some (Z.of_nat cnt).
Proof.
  intros Hc. destruct cnt as [|cnt]; [done|]. rewrite decide_False by done.
  cbn [bump default from_option]. rewrite wrap64_id; [done|]. unfold int64. lia.
Qed.

(** C2: in the container-level ledger [PodQOSResourceRequests] returns, a
    pair that regular containers request has as amount the number of its
    occurrences in the request lists of all regular containers, and a pair
    that only init containers request has amount 1, however many of them
    request it.  The number of requests of the regular containers is one an
    [int64] counter holds. *)
Theorem C2_container_ledger pod h n k :
  wf h →
  Z.of_nat (length (container_pairs (pod_Containers pod))) < 2 ^ 63 →
  ∃ amt,
    result ('(_, containerReqs) ← PodQOSResourceRequests pod;
            GetAmount (Some containerReqs) n k) h = Some amt ∧
    let cnt := occurrences n k (container_pairs (pod_Containers pod)) in
    ((0 < cnt)%nat → amt = (true, Z.of_nat cnt)) ∧
    (cnt = 0%nat → (n, k) ∈ container_pairs (pod_InitContainers pod) → amt = (true, 1)) ∧
    (cnt = 0%nat → (n, k) ∉ container_pairs (pod_InitContainers pod) → amt = (false, 0)).
Proof.
  intros Hwf Hlen.
  destruct (PodQOSResourceRequests_spec pod h Hwf)
    as (p & q & h' & Hrun & Hwf' & _ & _ & _ & _ & Hq & Hent).
  exists (found (entry h' (Some q) n k)). split.
  { rewrite (result_bind _ _ _ _ _ Hrun). cbv beta iota. by apply result_GetAmount. }
  destruct (Hent n k) as [_ ->]. cbv zeta.
  pose proof (occurrences_le n k (container_pairs (pod_Containers pod))) as Hle.
  rewrite bump_small by lia.
  set (cnt := occurrences n k (container_pairs (pod_Containers pod))) in *.
  split; [|split].
  - intros Hpos. rewrite (decide_False (P := cnt = 0%nat)) by lia. cbn [floor_one].
    assert ((Z.of_nat cnt =? 0) = false) as -> by (apply Z.eqb_neq; lia).
    by case_decide.
  - intros Hz Hin. rewrite (decide_True (P := cnt = 0%nat)) by done.
    by rewrite decide_True.
  - intros Hz Hin. rewrite (decide_True (P := cnt = 0%nat)) by done.
    by rewrite decide_False.
Qed.

(** C2 at the sample pod: (net, slow) is requested by two init containers
    and by no regular container. *)
Lemma C2_container_ledger_witness :
  wf empty_heap ∧
  Z.of_nat (length (container_pairs (pod_Containers sample_pod))) < 2 ^ 63 ∧
  ∃ amt,
    result ('(_, containerReqs) ← PodQOSResourceRequests sample_pod;
            GetAmount (Some containerReqs) "net" "slow") empty_heap = Some amt ∧
    let cnt := occurrences "net" "slow" (container_pairs (pod_Containers sample_pod)) in
    ((0 < cnt)%nat → amt = (true, Z.of_nat cnt)) ∧
    (cnt = 0%nat → ("net", "slow") ∈ container_pairs (pod_InitContainers sample_pod) →
       amt = (true, 1)) ∧
    (cnt = 0%nat → ("net", "slow") ∉ container_pairs (pod_InitContainers sample_pod) →
       amt = (false, 0)).
Proof.
  assert (Z.of_nat (length (container_pairs (pod_Containers sample_pod))) < 2 ^ 63)
    as Hlen by (vm_compute; reflexivity).
  split; [exact wf_empty_heap|]. split; [exact Hlen|].
  exact (C2_container_ledger sample_pod empty_heap "net" "slow" wf_empty_heap Hlen).
Defined.

(** C7: in the pod-level ledger [PodQOSResourceRequests] returns, the amount
    of every pair is the number of its occurrences in the pod-level request
    list, and the pair is found exactly when it occurs.  The length of the
    list is one an [int64] counter holds, as the length of a Go slice is. *)
Theorem C7_pod_ledger pod h n k :
  wf h →
  Z.of_nat (length (pod_QOSResources pod)) < 2 ^ 63 →
  let cnt := occurrences n k (pod_request_pairs (pod_QOSResources pod)) in
  result ('(podReqs, _) ← PodQOSResourceRequests pod;
          GetAmount (Some podReqs) n k) h
  = Some (bool_decide (0 < cnt)%nat, Z.of_nat cnt).
Proof.
  intros Hwf Hlen cnt.
  destruct (PodQOSResourceRequests_spec pod h Hwf)
    as (p & q & h' & Hrun & Hwf' & _ & _ & _ & Hp & _ & Hent).
  rewrite (result_bind _ _ _ _ _ Hrun). cbv beta iota.
  rewrite result_GetAmount by done. destruct (Hent n k) as [-> _].
  pose proof (occurrences_le n k (pod_request_pairs (pod_QOSResources pod))) as Hle.
  unfold pod_request_pairs in Hle at 2. rewrite length_fmap in Hle.
  fold cnt in Hle |- *. rewrite bump_small by lia.
  case_decide as Hc.
  - rewrite Hc. done.
  - simpl. by rewrite bool_decide_eq_true_2 by lia.
Qed.

(** C7 at the sample pod: two pod-level requests for (gpu, fast). *)
Lemma C7_pod_ledger_witness :
  wf empty_heap ∧
  Z.of_nat (length (pod_QOSResources sample_pod)) < 2 ^ 63 ∧
  result ('(podReqs, _) ← PodQOSResourceRequests sample_pod;
          GetAmount (Some podReqs) "gpu" "fast") empty_heap
  = Some (true, 2).
Proof.
  assert (Z.of_nat (length (pod_QOSResources sample_pod)) < 2 ^ 63)
    as Hlen by (vm_compute; reflexivity).
  split; [exact wf_empty_heap|]. split; [exact Hlen|].
  exact (C7_pod_ledger sample_pod empty_heap "gpu" "fast" wf_empty_heap Hlen).
Defined.

(** C9: every amount found in either ledger [PodQOSResourceRequests]
    returns is non-negative.  The numbers of pod-level requests and of
    regular-container requests are ones an [int64] counter holds. *)
Theorem C9_amounts_nonnegative pod h :
  wf h →
  Z.of_nat (length (pod_QOSResources pod)) < 2 ^ 63 →
  Z.of_nat (length (container_pairs (pod_Containers pod))) < 2 ^ 63 →
  ∃ podReqs containerReqs h',
    PodQOSResourceRequests pod h = Some ((podReqs, containerReqs), h') ∧
    ∀ n k a,
      (result (GetAmount (Some podReqs) n k) h' = Some (true, a) → 0 <= a) ∧
      (result (GetAmount (Some containerReqs) n k) h' = Some (true, a) → 0 <= a).
Proof.
  intros Hwf Hlen1 Hlen2.
  destruct (PodQOSResourceRequests_spec pod h Hwf)
    as (p & q & h' & Hrun & Hwf' & _ & _ & _ & Hp & Hq & Hent).
  exists p, q, h'. split; [done|]. intros n k a.
  rewrite !result_GetAmount by done. destruct (Hent n k) as [-> ->]. cbv zeta.
  pose proof (occurrences_le n k (pod_request_pairs (pod_QOSResources pod))) as Hle1.
  unfold pod_request_pairs in Hle1 at 2. rewrite length_fmap in Hle1.
  pose proof (occurrences_le n k (container_pairs (pod_Containers pod))) as Hle2.
  rewrite !bump_small by lia. split.
  - case_decide; simpl; [done|]. intros [= <-]. lia.
  - repeat case_decide; simpl; try done; try (intros [= <-]; lia).
    destruct (Z.of_nat _ =? 0); intros [= <-]; lia.
Qed.

(** C9 at the sample pod. *)
Lemma C9_amounts_nonnegative_witness :
  ∃ podReqs containerReqs h',
    PodQOSResourceRequests sample_pod empty_heap = Some ((podReqs, containerReqs), h') ∧
    ∀ n k a,
      (result (GetAmount (Some podReqs) n k) h' = Some (true, a) → 0 <= a) ∧
      (result (GetAmount (Some containerReqs) n k) h' = Some (true, a) → 0 <= a).
Proof.
  apply (C9_amounts_nonnegative sample_pod empty_heap wf_empty_heap);
    vm_compute; reflexivity.
Defined.

(** ** C4: adding and subtracting the same ledger *)

Lemma Sum_inverse h c c2 :
  wf h → is_Some (cells h !! c) → is_Some (cells h !! c2) → c2 ≠ c →
  ∃ h1 h2,
    Sum (Some c) (Some c2) true h = Some ((), h1) ∧
    Sum (Some c) (Some c2) false h1 = Some ((), h2) ∧
    wf h2 ∧ is_Some (cells h2 !! c) ∧
    ∀ n k, entry h2 (Some c) n k =
      match entry h (Some c2) n k with
      | Some _ => Some (default 0 (entry h (Some c) n k))
      | None => entry h (Some c) n k
      end.
Proof.
  intros Hwf Hc Hc2 Hne.
  destruct (Sum_spec h c c2 true Hwf Hc Hc2) as (h1 & Hrun1 & Hext1 & Hent1).
  pose proof (ext_valid _ _ _ (Some c) Hext1 Hc) as Hc'.
  pose proof (ext_valid _ _ _ (Some c2) Hext1 Hc2) as Hc2'.
  destruct (Sum_spec h1 c c2 false (ext_wf _ _ _ Hext1) Hc' Hc2')
    as (h2 & Hrun2 & Hext2 & Hent2).
  exists h1, h2. split; [done|]. split; [done|]. split; [by eapply ext_wf|].
  split; [by apply (ext_valid _ _ _ (Some c) Hext2)|].
  intros n k. rewrite (Hent2 Hne), (ext_entry _ _ _ c2 n k Hext1 Hne), (Hent1 Hne).
  destruct (entry h (Some c2) n k) as [x|]; [|done].
  cbn [signed default from_option]. unfold id. f_equal.
  apply wrap64_cancel, entry_default_int64, Hwf.
Qed.

(** C4: for a receiver ledger and another ledger, [Sum(other, true)]
    followed by [Sum(other, false)] gives every pair the amount it had
    before; a pair that was found is still found. *)
Theorem C4_sum_inverse h (r r2 : option positive) n k :
  wf h → valid h r → valid h r2 → r ≠ r2 →
  ∃ b a b',
    result (GetAmount r n k) h = Some (b, a) ∧
    result (Sum r r2 true ;; Sum r r2 false ;; GetAmount r n k) h = Some (b', a) ∧
    (b = true → b' = true).
Proof.
  intros Hwf Hr Hr2 Hne.
  destruct r as [c|].
  2:{ exists false, 0, false. done. }
  destruct r2 as [c2|].
  2:{ exists (found (entry h (Some c) n k)).1, (found (entry h (Some c) n k)).2,
             (found (entry h (Some c) n k)).1.
      assert (∀ b, Sum (Some c) None b h = Some ((), h)) as Hnil by done.
      rewrite !(result_seq _ _ _ _ (Hnil _)). rewrite result_GetAmount by done.
      by destruct (found _). }
  destruct (Sum_inverse h c c2 Hwf Hr Hr2 ltac:(congruence))
    as (h1 & h2 & Hrun1 & Hrun2 & Hwf2 & Hc2 & Hent).
  exists (found (entry h (Some c) n k)).1, (found (entry h (Some c) n k)).2,
         (found (entry h2 (Some c) n k)).1.
  rewrite (result_seq _ _ _ _ Hrun1), (result_seq _ _ _ _ Hrun2).
  rewrite !result_GetAmount by done. rewrite Hent.
  destruct (entry h (Some c2) n k), (entry h (Some c) n k); done.
Qed.

(** C4 at two ledgers with (gpu, fast) = 5 and (gpu, fast) = 3. *)
Lemma C4_sum_inverse_witness :
  result (GetAmount (Some 1%positive) "gpu" "fast") (pair_heap 5 3) = Some (true, 5) ∧
  result (Sum (Some 1%positive) (Some 2%positive) true ;;
          Sum (Some 1%positive) (Some 2%positive) false ;;
          GetAmount (Some 1%positive) "gpu" "fast") (pair_heap 5 3) = Some (true, 5).
Proof.
  assert (wf (pair_heap 5 3)) as Hwf by (apply wf_pair_heap; unfold int64; lia).
  destruct (C4_sum_inverse (pair_heap 5 3) (Some 1%positive) (Some 2%positive) "gpu" "fast"
              Hwf ltac:(vm_compute; eauto) ltac:(vm_compute; eauto) ltac:(discriminate))
    as (b & a & b' & Hbefore & Hafter & Hfound).
  assert (result (GetAmount (Some 1%positive) "gpu" "fast") (pair_heap 5 3) = Some (true, 5))
    as Hget by reflexivity.
  rewrite Hget in Hbefore. injection Hbefore as <- <-.
  rewrite (Hfound eq_refl) in Hafter. exact (conj Hget Hafter).
Defined.

(** ** C3: the three cases of [GetAmount] *)

(** C3: [GetAmount] returns (false, 0) when the ledger has no key for the
    resource, (false, 0) when it has the resource but no key for the class,
    and (true, amount) when both keys are there; this includes (true, 0)
    for a pair whose amount another ledger raised and then brought back to
    zero by a subtraction. *)
Theorem C3_GetAmount_cases h c name class :
  wf h →
  (cells h !! c = Some None →
     result (GetAmount (Some c) name class) h = Some (false, 0)) ∧
  (∀ o m, cells h !! c = Some (Some o) → outers h !! o = Some m →
     (m !! name = None → result (GetAmount (Some c) name class) h = Some (false, 0)) ∧
     (m !! name = Some None →
        result (GetAmount (Some c) name class) h = Some (false, 0)) ∧
     (∀ i im, m !! name = Some (Some i) → inners h !! i = Some im →
        (im !! class = None →
           result (GetAmount (Some c) name class) h = Some (false, 0)) ∧
        (∀ a, im !! class = Some a →
           result (GetAmount (Some c) name class) h = Some (true, a)))) ∧
  (∀ c2 a, is_Some (cells h !! c) → c2 ≠ c →
     entry h (Some c2) name class = Some a →
     default 0 (entry h (Some c) name class) = 0 →
     result (Sum (Some c) (Some c2) true ;; Sum (Some c) (Some c2) false ;;
             GetAmount (Some c) name class) h = Some (true, 0)).
Proof.
  intros Hwf. split; [|split].
  - intros Hc. rewrite result_GetAmount by (simpl; eauto).
    by rewrite (entry_nil _ _ _ _ Hc).
  - intros o m Hc Hm.
    assert (valid h (Some c)) as Hv by (simpl; eauto).
    rewrite !result_GetAmount by done. split; [|split].
    + intros Hn. by rewrite (entry_absent _ _ _ _ _ _ Hc Hm) by by rewrite Hn.
    + intros Hn. by rewrite (entry_absent _ _ _ _ _ _ Hc Hm) by by rewrite Hn.
    + intros i im Hn Hi. rewrite (entry_eq _ _ _ _ _ _ _ class Hc Hm Hn Hi).
      split; [by intros ->|]. by intros a ->.
  - intros c2 a Hc Hne Hc2 Hz.
    assert (is_Some (cells h !! c2)) as Hv2.
    { apply entry_Some in Hc2 as (o & _ & _ & _ & Ho & _). eauto. }
    destruct (Sum_inverse h c c2 Hwf Hc Hv2 Hne)
      as (h1 & h2 & Hrun1 & Hrun2 & Hwf2 & Hv & Hent).
    rewrite (result_seq _ _ _ _ Hrun1), (result_seq _ _ _ _ Hrun2).
    rewrite result_GetAmount by done. by rewrite Hent, Hc2, Hz.
Qed.

(** C3 at a ledger with the entry (gpu, fast) = 5. *)
Lemma C3_GetAmount_cases_witness :
  result (GetAmount (Some 1%positive) "gpu" "fast") (gpu_heap 5) = Some (true, 5) ∧
  result (GetAmount (Some 1%positive) "gpu" "slow") (gpu_heap 5) = Some (false, 0) ∧
  result (GetAmount (Some 1%positive) "net" "fast") (gpu_heap 5) = Some (false, 0).
Proof.
  assert (wf (gpu_heap 5)) as Hwf by (apply wf_gpu_heap; unfold int64; lia).
  pose proof (C3_GetAmount_cases (gpu_heap 5) 1%positive "gpu" "fast" Hwf) as (_ & Hgf & _).
  pose proof (C3_GetAmount_cases (gpu_heap 5) 1%positive "gpu" "slow" Hwf) as (_ & Hgs & _).
  pose proof (C3_GetAmount_cases (gpu_heap 5) 1%positive "net" "fast" Hwf) as (_ & Hnf & _).
  destruct (Hgf 1%positive {["gpu" := Some 1%positive]} eq_refl eq_refl) as (_ & _ & Hgf1).
  destruct (Hgf1 1%positive {["fast" := 5]} eq_refl eq_refl) as [_ Hgf2].
  destruct (Hgs 1%positive {["gpu" := Some 1%positive]} eq_refl eq_refl) as (_ & _ & Hgs1).
  destruct (Hgs1 1%positive {["fast" := 5]} eq_refl eq_refl) as [Hgs2 _].
  destruct (Hnf 1%positive {["gpu" := Some 1%positive]} eq_refl eq_refl) as (Hnf1 & _).
  split; [exact (Hgf2 5 eq_refl)|]. split; [exact (Hgs2 eq_refl)|exact (Hnf1 eq_refl)].
Defined.

(** ** C10: keys are never removed *)

Lemma found_true e a : found e = (true, a) → e = Some a.
Proof. destruct e; simpl; congruence. Qed.

(** C10: a pair that [GetAmount] finds in a ledger is still found after any
    sequence of [add], [AddPodQOSResources], [AddContainerQOSResources],
    [SetMaxContainerQOSResources] and [Sum] (in either direction, with any
    ledger of the store, the receiver included) on that ledger. *)
Theorem C10_keys_persist h c ops n k :
  wf h → is_Some (cells h !! c) → Forall (op_valid h) ops →
  (∃ a, result (GetAmount (Some c) n k) h = Some (true, a)) →
  ∃ a', result (run_ops (Some c) ops ;; GetAmount (Some c) n k) h = Some (true, a').
Proof.
  intros Hwf Hc Hops [a Ha].
  rewrite result_GetAmount in Ha by done. injection Ha as Ha. apply found_true in Ha.
  destruct (run_ops_ext h c ops Hwf Hc Hops) as (h' & Hrun & Hext).
  destruct (ext_keys _ _ _ Hext n k ltac:(eauto)) as [a' Ha'].
  exists a'. rewrite (result_seq _ _ _ _ Hrun).
  rewrite result_GetAmount; [by rewrite Ha'|by eapply ext_wf|].
  by apply (ext_valid _ _ _ (Some c) Hext).
Qed.

(** C10 at a ledger with (gpu, fast) = 1 that is decreased to 0, subtracted
    from itself and merged with request lists. *)
Lemma C10_keys_persist_witness :
  ∃ a', result (run_ops (Some 1%positive)
                  [OpAdd "gpu" "fast" (-1); OpSum (Some 1%positive) false;
                   OpAdd "gpu" "fast" (-3); OpSetMax [Request "gpu" "fast"];
                   OpAddContainer [Request "net" "slow"];
                   OpAddPod [PodRequest "gpu" "slow"]] ;;
                GetAmount (Some 1%positive) "gpu" "fast") (gpu_heap 1) = Some (true, a').
Proof.
  apply (C10_keys_persist (gpu_heap 1) 1%positive).
  - apply wf_gpu_heap. unfold int64. lia.
  - vm_compute. eauto.
  - repeat constructor. vm_compute. eauto.
  - exists 1. reflexivity.
Defined.

(** ** C5: [Clone] *)

(** C5: the clone of a ledger gives the same [GetAmount] result as the
    source for every pair, it is another variable than the source, no
    sequence of mutations of the clone changes a [GetAmount] result of the
    source, and none of the source changes one of the clone; the clone of a
    nil pointer is nil. *)
Theorem C5_clone_independent h c :
  wf h → is_Some (cells h !! c) →
  Clone None h = Some (None, h) ∧
  ∃ p h1, Clone (Some c) h = Some (Some p, h1) ∧ p ≠ c ∧
    (∀ n k, result (GetAmount (Some p) n k) h1 = result (GetAmount (Some c) n k) h) ∧
    (∀ n k, result (GetAmount (Some c) n k) h1 = result (GetAmount (Some c) n k) h) ∧
    (∀ ops, Forall (op_valid h1) ops →
       ∃ h2, run_ops (Some p) ops h1 = Some ((), h2) ∧
         ∀ n k, result (GetAmount (Some c) n k) h2 = result (GetAmount (Some c) n k) h) ∧
    (∀ ops, Forall (op_valid h1) ops →
       ∃ h2, run_ops (Some c) ops h1 = Some ((), h2) ∧
         ∀ n k, result (GetAmount (Some p) n k) h2 = result (GetAmount (Some c) n k) h).
Proof.
  intros Hwf Hc. split; [done|].
  destruct (Clone_spec h c Hwf Hc) as (p & h1 & Hrun & Hwf1 & Hp & Hp1 & Hval & Hold & Hnew).
  assert (p ≠ c) as Hne.
  { intros ->. rewrite Hp in Hc. by destruct Hc. }
  pose proof (Hval c Hc) as Hc1.
  exists p, h1. split; [done|]. split; [done|].
  split; [|split; [|split]].
  - intros n k. rewrite !result_GetAmount by done. by rewrite Hnew.
  - intros n k. rewrite !result_GetAmount by done. by rewrite Hold.
  - intros ops Hops. destruct (run_ops_ext h1 p ops Hwf1 Hp1 Hops) as (h2 & Hrun2 & Hext).
    exists h2. split; [done|]. intros n k.
    rewrite !result_GetAmount;
      [|done|done|by eapply ext_wf|by apply (ext_valid _ _ _ (Some c) Hext)].
    by rewrite (ext_entry _ _ _ c n k Hext (not_eq_sym Hne)), Hold.
  - intros ops Hops. destruct (run_ops_ext h1 c ops Hwf1 Hc1 Hops) as (h2 & Hrun2 & Hext).
    exists h2. split; [done|]. intros n k.
    rewrite !result_GetAmount;
      [|done|done|by eapply ext_wf|by apply (ext_valid _ _ _ (Some p) Hext)].
    by rewrite (ext_entry _ _ _ p n k Hext Hne), Hnew.
Qed.

(** C5 at a ledger with the entry (gpu, fast) = 5. *)
Lemma C5_clone_independent_witness :
  Clone None (gpu_heap 5) = Some (None, gpu_heap 5) ∧
  ∃ p h1, Clone (Some 1%positive) (gpu_heap 5) = Some (Some p, h1) ∧ p ≠ 1%positive ∧
    (∀ n k, result (GetAmount (Some p) n k) h1
            = result (GetAmount (Some 1%positive) n k) (gpu_heap 5)) ∧
    (∀ n k, result (GetAmount (Some 1%positive) n k) h1
            = result (GetAmount (Some 1%positive) n k) (gpu_heap 5)) ∧
    (∀ ops, Forall (op_valid h1) ops →
       ∃ h2, run_ops (Some p) ops h1 = Some ((), h2) ∧
         ∀ n k, result (GetAmount (Some 1%positive) n k) h2
                = result (GetAmount (Some 1%positive) n k) (gpu_heap 5)) ∧
    (∀ ops, Forall (op_valid h1) ops →
       ∃ h2, run_ops (Some 1%positive) ops h1 = Some ((), h2) ∧
         ∀ n k, result (GetAmount (Some p) n k) h2
                = result (GetAmount (Some 1%positive) n k) (gpu_heap 5)).
Proof.
  apply (C5_clone_independent (gpu_heap 5) 1%positive).
  - apply wf_gpu_heap. unfold int64. lia.
  - vm_compute. eauto.
Defined.

(** ** C6: nil and unset ledgers *)

(** C6: on a nil receiver the mutators return at once and leave the store
    as it is, [Sum] does so for a nil argument too, [GetAmount] returns
    (false, 0) for a nil receiver and for an unset ledger, and [Clone] of
    nil is nil; on an unset ledger every mutator and [Clone] return. *)
Theorem C6_nil_safe h name class amount pqrl qrl (r r2 : option positive) (b : bool) :
  add None name class amount h = Some ((), h) ∧
  AddPodQOSResources None pqrl h = Some ((), h) ∧
  AddContainerQOSResources None qrl h = Some ((), h) ∧
  SetMaxContainerQOSResources None qrl h = Some ((), h) ∧
  Sum None r2 b h = Some ((), h) ∧
  Sum r None b h = Some ((), h) ∧
  GetAmount None name class h = Some ((false, 0), h) ∧
  Clone None h = Some (None, h) ∧
  ∀ c, cells h !! c = Some None →
    GetAmount (Some c) name class h = Some ((false, 0), h) ∧
    (wf h → valid h r2 →
       (∃ h', add (Some c) name class amount h = Some ((), h')) ∧
       (∃ h', AddPodQOSResources (Some c) pqrl h = Some ((), h')) ∧
       (∃ h', AddContainerQOSResources (Some c) qrl h = Some ((), h')) ∧
       (∃ h', SetMaxContainerQOSResources (Some c) qrl h = Some ((), h')) ∧
       (∃ h', Sum (Some c) r2 b h = Some ((), h')) ∧
       (∃ p h', Clone (Some c) h = Some (Some p, h'))).
Proof.
  repeat (split; [by destruct r || done|]).
  intros c Hc. split.
  { unfold GetAmount. by step (deref_eq _ _ _ Hc). }
  intros Hwf Hr2. assert (is_Some (cells h !! c)) as Hv by eauto.
  split; [|split; [|split; [|split; [|split]]]].
  - destruct (add_spec h c name class amount Hwf Hv) as (h' & ? & _). eauto.
  - destruct (AddPodQOSResources_spec h c pqrl Hwf Hv) as (h' & ? & _). eauto.
  - destruct (AddContainerQOSResources_spec h c qrl Hwf Hv) as (h' & ? & _). eauto.
  - destruct (SetMaxContainerQOSResources_spec h c qrl Hwf Hv) as (h' & ? & _). eauto.
  - destruct (Sum_ext h c r2 b Hwf Hv Hr2) as (h' & ? & _). eauto.
  - destruct (Clone_spec h c Hwf Hv) as (p & h' & ? & _). eauto.
Qed.

(** C6 at a store with one unset ledger. *)
Lemma C6_nil_safe_witness :
  GetAmount (Some 1%positive) "gpu" "fast" unset_heap = Some ((false, 0), unset_heap) ∧
  (∃ h', add (Some 1%positive) "gpu" "fast" 1 unset_heap = Some ((), h')) ∧
  (∃ h', Sum (Some 1%positive) (Some 1%positive) true unset_heap = Some ((), h')) ∧
  (∃ p h', Clone (Some 1%positive) unset_heap = Some (Some p, h')).
Proof.
  destruct (C6_nil_safe unset_heap "gpu" "fast" 1 [] [] None (Some 1%positive) true)
    as (_ & _ & _ & _ & _ & _ & _ & _ & Hunset).
  destruct (Hunset 1%positive eq_refl) as [Hget Hmut].
  destruct (Hmut wf_unset_heap ltac:(vm_compute; eauto))
    as (Hadd & _ & _ & _ & Hsum & Hclone).
  exact (conj Hget (conj Hadd (conj Hsum Hclone))).
Defined.

(** ** C8: [QOSResourcesTotalFromInfo] *)

(** C8, as stated, fails on a description that names a resource twice: the
    first element advertises (gpu, slow) with capacity 16, the second
    element names gpu again without the class slow, and the built ledger
    has no entry for (gpu, slow); the counter of the second element
    replaced the one of the first as a whole. *)
Lemma C8_later_element_replaces :
  Info "gpu" [ClassInfo "fast" 8; ClassInfo "slow" 16] ∈ twice_infos ∧
  result (m ← QOSResourcesTotalFromInfo twice_infos;
          t ← new_var m;
          x ← GetAmount (Some t) "gpu" "fast";
          y ← GetAmount (Some t) "gpu" "slow";
          ret (x, y)) empty_heap
  = Some ((true, 9), (false, 0)).
Proof. split; [left|vm_compute; reflexivity]. Qed.

(** C8, amended: for every capacity description, the built ledger maps each
    resource the description names to the counter of the last element that
    names it (a later element of the same resource name replaces the
    earlier counter as a whole), and that counter maps each class name of
    the element to its capacity as it is, nothing added up, the last
    capacity when the element lists a class name twice; a pair the last
    element of its resource does not list has no entry.  The capacities are
    [int64] values. *)
Theorem C8_from_info infos h n k :
  wf h → Forall int64_info infos →
  result (m ← QOSResourcesTotalFromInfo infos;
          t ← new_var m;
          GetAmount (Some t) n k) h
  = Some (found (advertised infos n k)).
Proof.
  intros Hwf Hint.
  destruct (QOSResourcesTotalFromInfo_spec infos h Hwf Hint)
    as (o & h1 & mo & Hrun & Hwf1 & Hcells & Hfresh & Hout & Hent).
  rewrite (result_bind _ _ _ _ _ Hrun).
  set (p := fresh (dom (cells h1))).
  set (h2 := Heap (<[p := Some o]> (cells h1)) (outers h1) (inners h1)).
  assert (new_var (Some o) h1 = Some (p, h2)) as Hnew by done.
  rewrite (result_bind _ _ _ _ _ Hnew).
  assert (wf h2) as Hwf2.
  { apply wf_new_var; [done|eauto|]. intros c. rewrite Hcells. intros Hc.
    destruct (wf_cell _ Hwf _ _ Hc). congruence. }
  assert (cells h2 !! p = Some (Some o)) as Hp.
  { unfold h2. cbn [cells]. by rewrite lookup_insert_eq. }
  rewrite result_GetAmount; [|done|simpl; eauto]. do 2 f_equal.
  rewrite (entry_inner h2 p o mo n k Hp Hout). apply Hent.
Qed.

(** C8 at the description [gpu: fast 8, slow 16, fast 9]: the later
    capacity of [fast] replaces the earlier one. *)
Lemma C8_from_info_witness :
  result (m ← QOSResourcesTotalFromInfo
                [Info "gpu" [ClassInfo "fast" 8; ClassInfo "slow" 16; ClassInfo "fast" 9]];
          t ← new_var m;
          GetAmount (Some t) "gpu" "fast") empty_heap
  = Some (true, 9).
Proof.
  apply (C8_from_info
           [Info "gpu" [ClassInfo "fast" 8; ClassInfo "slow" 16; ClassInfo "fast" 9]]
           empty_heap "gpu" "fast" wf_empty_heap).
  repeat constructor; unfold int64; simpl; lia.
Defined.

(** * Further properties of the helpers *)

Lemma wf_seed_heap a : int64 a → wf (seed_heap a).
Proof.
  intros Ha. split; unfold seed_heap; cbn [cells outers inners]; intros *;
    rewrite ?lookup_insert_Some, ?lookup_singleton_Some;
    try (intros; destruct_and?; destruct_or?; destruct_and?; simplify_eq;
         rewrite ?lookup_insert_Some, ?lookup_singleton_Some in *;
         repeat (destruct_and? || destruct_or?); simplify_eq; eauto; fail).
  all: naive_solver.
Qed.

Lemma wrap64_add_wrap64 x y : wrap64 (x + wrap64 y) = wrap64 (x + y).
Proof. rewrite Z.add_comm, wrap64_wrap64_add. f_equal. lia. Qed.

(** ** [add] on any ledger *)

(** X1: on any ledger, unset ones included, [add(name, class, amount)] makes
    the pair found with the amount it had (0 when it was not found) plus
    [amount], wrapped to [int64]; every other pair of the ledger keeps its
    [GetAmount] result. *)
Theorem X1_add_amount h c name class amount n k :
  wf h → is_Some (cells h !! c) →
  ∃ b a,
    result (GetAmount (Some c) name class) h = Some (b, a) ∧
    result (add (Some c) name class amount ;; GetAmount (Some c) name class) h
      = Some (true, wrap64 (a + amount)) ∧
    ((n, k) ≠ (name, class) →
       result (add (Some c) name class amount ;; GetAmount (Some c) n k) h
       = result (GetAmount (Some c) n k) h).
Proof.
  intros Hwf Hc.
  destruct (add_spec h c name class amount Hwf Hc) as (h' & Hrun & Hext & Hent).
  pose proof (ext_valid _ _ _ (Some c) Hext Hc) as Hc'.
  exists (found (entry h (Some c) name class)).1, (found (entry h (Some c) name class)).2.
  rewrite !(result_seq _ _ _ _ Hrun).
  rewrite !result_GetAmount by (done || by eapply ext_wf). rewrite !Hent.
  split; [by destruct (found _)|]. split.
  - rewrite decide_True by done. by destruct (entry h (Some c) name class).
  - intros Hne. rewrite decide_False; [done|]. intros [-> ->]. done.
Qed.

(** X1 at the largest [int64]: one more unit wraps around to the smallest. *)
Lemma X1_add_amount_witness :
  result (GetAmount (Some 1%positive) "gpu" "fast") (gpu_heap (2 ^ 63 - 1))
    = Some (true, 2 ^ 63 - 1) ∧
  result (add (Some 1%positive) "gpu" "fast" 1 ;;
          GetAmount (Some 1%positive) "gpu" "fast") (gpu_heap (2 ^ 63 - 1))
    = Some (true, - 2 ^ 63).
Proof.
  assert (wf (gpu_heap (2 ^ 63 - 1))) as Hwf by (apply wf_gpu_heap; unfold int64; lia).
  destruct (X1_add_amount (gpu_heap (2 ^ 63 - 1)) 1%positive "gpu" "fast" 1 "gpu" "fast"
              Hwf ltac:(vm_compute; eauto)) as (b & a & Hbefore & Hafter & _).
  assert (result (GetAmount (Some 1%positive) "gpu" "fast") (gpu_heap (2 ^ 63 - 1))
          = Some (true, 2 ^ 63 - 1)) as Hget by reflexivity.
  rewrite Hget in Hbefore. injection Hbefore as <- <-.
  exact (conj Hget Hafter).
Defined.

(** ** Request lists added to any ledger *)

(** X2: on any ledger, [AddContainerQOSResources] and [AddPodQOSResources]
    leave a pair that is not in the list as it is (found or not), and give a
    pair of the list its former amount (0 when it was not found) plus the
    number of its occurrences, wrapped to [int64]. *)
Theorem X2_add_requests h c qrl pqrl n k :
  wf h → is_Some (cells h !! c) →
  ∃ b a,
    result (GetAmount (Some c) n k) h = Some (b, a) ∧
    result (AddContainerQOSResources (Some c) qrl ;; GetAmount (Some c) n k) h
      = Some (match occurrences n k (request_pairs qrl) with
              | O => (b, a)
              | S cnt => (true, wrap64 (a + Z.of_nat (S cnt)))
              end) ∧
    result (AddPodQOSResources (Some c) pqrl ;; GetAmount (Some c) n k) h
      = Some (match occurrences n k (pod_request_pairs pqrl) with
              | O => (b, a)
              | S cnt => (true, wrap64 (a + Z.of_nat (S cnt)))
              end).
Proof.
  intros Hwf Hc.
  destruct (AddContainerQOSResources_spec h c qrl Hwf Hc) as (h1 & Hrun1 & Hext1 & Hent1).
  destruct (AddPodQOSResources_spec h c pqrl Hwf Hc) as (h2 & Hrun2 & Hext2 & Hent2).
  pose proof (ext_valid _ _ _ (Some c) Hext1 Hc) as Hc1.
  pose proof (ext_valid _ _ _ (Some c) Hext2 Hc) as Hc2.
  exists (found (entry h (Some c) n k)).1, (found (entry h (Some c) n k)).2.
  rewrite (result_seq _ _ _ _ Hrun1), (result_seq _ _ _ _ Hrun2).
  rewrite !result_GetAmount by (done || by eapply ext_wf). rewrite Hent1, Hent2.
  split; [by destruct (found _)|].
  split.
  - destruct (occurrences n k (request_pairs qrl)); cbn [bump];
      by destruct (entry h (Some c) n k).
  - destruct (occurrences n k (pod_request_pairs pqrl)); cbn [bump];
      by destruct (entry h (Some c) n k).
Qed.

(** X2 at a ledger with (gpu, fast) = 5 that gets two more requests. *)
Lemma X2_add_requests_witness :
  result (AddContainerQOSResources (Some 1%positive)
            [Request "gpu" "fast"; Request "net" "slow"; Request "gpu" "fast"] ;;
          GetAmount (Some 1%positive) "gpu" "fast") (gpu_heap 5) = Some (true, 7).
Proof.
  assert (wf (gpu_heap 5)) as Hwf by (apply wf_gpu_heap; unfold int64; lia).
  destruct (X2_add_requests (gpu_heap 5) 1%positive
              [Request "gpu" "fast"; Request "net" "slow"; Request "gpu" "fast"] []
              "gpu" "fast" Hwf ltac:(vm_compute; eauto)) as (b & a & Hbefore & Hafter & _).
  assert (result (GetAmount (Some 1%positive) "gpu" "fast") (gpu_heap 5) = Some (true, 5))
    as Hget by reflexivity.
  rewrite Hget in Hbefore. injection Hbefore as <- <-. exact Hafter.
Defined.

(** ** [Sum] of two ledgers *)

(** X3: for two different ledgers, [Sum(other, flag)] changes the pairs that
    are found in the other ledger and no others: such a pair becomes found
    in the receiver with its former amount (0 when it was not found) plus
    the other amount, or plus its negation when [flag] is false, each
    wrapped to [int64]; the other ledger keeps all its results. *)
Theorem X3_sum_amount h c c2 (flag : bool) n k :
  wf h → is_Some (cells h !! c) → is_Some (cells h !! c2) → c2 ≠ c →
  ∃ b1 a1 b2 a2,
    result (GetAmount (Some c) n k) h = Some (b1, a1) ∧
    result (GetAmount (Some c2) n k) h = Some (b2, a2) ∧
    result (Sum (Some c) (Some c2) flag ;; GetAmount (Some c) n k) h
      = Some (if b2 then (true, wrap64 (a1 + (if flag then a2 else wrap64 (-1 * a2))))
              else (b1, a1)) ∧
    result (Sum (Some c) (Some c2) flag ;; GetAmount (Some c2) n k) h = Some (b2, a2).
Proof.
  intros Hwf Hc Hc2 Hne.
  destruct (Sum_spec h c c2 flag Hwf Hc Hc2) as (h' & Hrun & Hext & Hent).
  pose proof (ext_valid _ _ _ (Some c) Hext Hc) as Hc'.
  pose proof (ext_valid _ _ _ (Some c2) Hext Hc2) as Hc2'.
  exists (found (entry h (Some c) n k)).1, (found (entry h (Some c) n k)).2,
         (found (entry h (Some c2) n k)).1, (found (entry h (Some c2) n k)).2.
  rewrite !(result_seq _ _ _ _ Hrun).
  rewrite !result_GetAmount by (done || by eapply ext_wf).
  rewrite (Hent Hne), (ext_entry _ _ _ c2 n k Hext Hne).
  split; [by destruct (found _)|]. split; [by destruct (found _)|].
  split; [|by destruct (found _)].
  destruct (entry h (Some c2) n k) as [x|], (entry h (Some c) n k) as [y|];
    by destruct flag.
Qed.

(** X3 at two ledgers with (gpu, fast) = 5 and (gpu, fast) = 3: subtracting
    the second one twice leaves -1. *)
Lemma X3_sum_amount_witness :
  result (Sum (Some 1%positive) (Some 2%positive) false ;;
          Sum (Some 1%positive) (Some 2%positive) false ;;
          GetAmount (Some 1%positive) "gpu" "fast") (pair_heap 5 3) = Some (true, -1) ∧
  ∃ b1 a1 b2 a2,
    result (GetAmount (Some 1%positive) "gpu" "fast") (pair_heap 5 3) = Some (b1, a1) ∧
    result (GetAmount (Some 2%positive) "gpu" "fast") (pair_heap 5 3) = Some (b2, a2) ∧
    result (Sum (Some 1%positive) (Some 2%positive) false ;;
            GetAmount (Some 1%positive) "gpu" "fast") (pair_heap 5 3)
      = Some (if b2 then (true, wrap64 (a1 + (if false then a2 else wrap64 (-1 * a2))))
              else (b1, a1)) ∧
    result (Sum (Some 1%positive) (Some 2%positive) false ;;
            GetAmount (Some 2%positive) "gpu" "fast") (pair_heap 5 3) = Some (b2, a2).
Proof.
  split; [vm_compute; reflexivity|].
  apply (X3_sum_amount (pair_heap 5 3) 1%positive 2%positive false "gpu" "fast").
  - apply wf_pair_heap; unfold int64; lia.
  - vm_compute. eauto.
  - vm_compute. eauto.
  - discriminate.
Defined.

(** X4: no sequence of mutations of one ledger ([add], the two request
    adders, [SetMaxContainerQOSResources], [Sum] with any argument) changes
    a [GetAmount] result of another ledger; [Sum] in particular leaves its
    argument as it is. *)
Theorem X4_other_ledgers_unchanged h c c2 ops n k :
  wf h → is_Some (cells h !! c) → is_Some (cells h !! c2) → c2 ≠ c →
  Forall (op_valid h) ops →
  result (run_ops (Some c) ops ;; GetAmount (Some c2) n k) h
  = result (GetAmount (Some c2) n k) h.
Proof.
  intros Hwf Hc Hc2 Hne Hops.
  destruct (run_ops_ext h c ops Hwf Hc Hops) as (h' & Hrun & Hext).
  rewrite (result_seq _ _ _ _ Hrun).
  rewrite !result_GetAmount;
    [|done|done|by eapply ext_wf|by apply (ext_valid _ _ _ (Some c2) Hext)].
  by rewrite (ext_entry _ _ _ c2 n k Hext Hne).
Qed.

(** X4 at two ledgers: the second one is added to the first, which then
    gets requests of its own. *)
Lemma X4_other_ledgers_unchanged_witness :
  result (run_ops (Some 1%positive)
            [OpSum (Some 2%positive) true; OpAdd "gpu" "fast" 4;
             OpSetMax [Request "gpu" "slow"]; OpSum (Some 2%positive) false;
             OpAddContainer [Request "gpu" "fast"]] ;;
          GetAmount (Some 2%positive) "gpu" "fast") (pair_heap 5 3)
  = result (GetAmount (Some 2%positive) "gpu" "fast") (pair_heap 5 3).
Proof.
  apply (X4_other_ledgers_unchanged (pair_heap 5 3) 1%positive 2%positive).
  - apply wf_pair_heap; unfold int64; lia.
  - vm_compute. eauto.
  - vm_compute. eauto.
  - discriminate.
  - repeat constructor; vm_compute; eauto.
Defined.

(** X5: two [Sum]s into one ledger, each of a ledger other than the
    receiver, commute, whatever their flags: the order in which the
    contributions of other ledgers are added to or removed from a running
    total does not matter.  (With the receiver itself as an argument the
    order matters, see [scenario_sum_self_order].) *)
Theorem X5_sum_commutes h c c1 c2 (flag1 flag2 : bool) n k :
  wf h → is_Some (cells h !! c) → is_Some (cells h !! c1) → is_Some (cells h !! c2) →
  c1 ≠ c → c2 ≠ c →
  result (Sum (Some c) (Some c1) flag1 ;; Sum (Some c) (Some c2) flag2 ;;
          GetAmount (Some c) n k) h
  = result (Sum (Some c) (Some c2) flag2 ;; Sum (Some c) (Some c1) flag1 ;;
            GetAmount (Some c) n k) h.
Proof.
  intros Hwf Hc Hc1 Hc2 Hne1 Hne2.
  destruct (Sum_spec h c c1 flag1 Hwf Hc Hc1) as (ha & Hruna & Hexta & Henta).
  destruct (Sum_spec ha c c2 flag2 (ext_wf _ _ _ Hexta)
              (ext_valid _ _ _ (Some c) Hexta Hc) (ext_valid _ _ _ (Some c2) Hexta Hc2))
    as (hab & Hrunab & Hextab & Hentab).
  destruct (Sum_spec h c c2 flag2 Hwf Hc Hc2) as (hb & Hrunb & Hextb & Hentb).
  destruct (Sum_spec hb c c1 flag1 (ext_wf _ _ _ Hextb)
              (ext_valid _ _ _ (Some c) Hextb Hc) (ext_valid _ _ _ (Some c1) Hextb Hc1))
    as (hba & Hrunba & Hextba & Hentba).
  rewrite (result_seq _ _ _ _ Hruna), (result_seq _ _ _ _ Hrunab).
  rewrite (result_seq _ _ _ _ Hrunb), (result_seq _ _ _ _ Hrunba).
  rewrite !result_GetAmount;
    [|by eapply ext_wf
     |apply (ext_valid _ _ _ (Some c) Hextba), (ext_valid _ _ _ (Some c) Hextb), Hc
     |by eapply ext_wf
     |apply (ext_valid _ _ _ (Some c) Hextab), (ext_valid _ _ _ (Some c) Hexta), Hc].
  do 2 f_equal.
  rewrite (Hentab Hne2), (Hentba Hne1), !(Henta Hne1), !(Hentb Hne2).
  rewrite (ext_entry _ _ _ c2 n k Hexta Hne2), (ext_entry _ _ _ c1 n k Hextb Hne1).
  destruct (entry h (Some c1) n k) as [x1|], (entry h (Some c2) n k) as [x2|];
    cbn [default from_option]; unfold id; try done.
  f_equal. rewrite !wrap64_wrap64_add. f_equal. lia.
Qed.

(** X5 at two ledgers: adding the second one and then subtracting it equals
    subtracting it first and adding it then. *)
Lemma X5_sum_commutes_witness :
  result (Sum (Some 1%positive) (Some 2%positive) true ;;
          Sum (Some 1%positive) (Some 2%positive) false ;;
          GetAmount (Some 1%positive) "gpu" "fast") (pair_heap 5 3)
  = result (Sum (Some 1%positive) (Some 2%positive) false ;;
            Sum (Some 1%positive) (Some 2%positive) true ;;
            GetAmount (Some 1%positive) "gpu" "fast") (pair_heap 5 3).
Proof.
  apply (X5_sum_commutes (pair_heap 5 3) 1%positive 2%positive 2%positive true false).
  - apply wf_pair_heap; unfold int64; lia.
  - vm_compute. eauto.
  - vm_compute. eauto.
  - vm_compute. eauto.
  - discriminate.
  - discriminate.
Defined.

(** With the receiver as one of the arguments the two orders differ:
    doubling 5 and adding 3 gives 13, adding 3 and doubling gives 16. *)
Example scenario_sum_self_order :
  result (Sum (Some 1%positive) (Some 1%positive) true ;;
          Sum (Some 1%positive) (Some 2%positive) true ;;
          GetAmount (Some 1%positive) "gpu" "fast") (pair_heap 5 3) = Some (true, 13) ∧
  result (Sum (Some 1%positive) (Some 2%positive) true ;;
          Sum (Some 1%positive) (Some 1%positive) true ;;
          GetAmount (Some 1%positive) "gpu" "fast") (pair_heap 5 3) = Some (true, 16).
Proof. split; vm_compute; reflexivity. Qed.

(** X6: [Sum(other, true)] copies into the receiver every pair the receiver
    does not hold: for such a pair the receiver then returns what the other
    ledger returns.  On an unset receiver this holds for every pair. *)
Theorem X6_sum_copies h c c2 n k :
  wf h → is_Some (cells h !! c) → is_Some (cells h !! c2) → c2 ≠ c →
  result (GetAmount (Some c) n k) h = Some (false, 0) →
  result (Sum (Some c) (Some c2) true ;; GetAmount (Some c) n k) h
  = result (GetAmount (Some c2) n k) h.
Proof.
  intros Hwf Hc Hc2 Hne Hnone.
  destruct (Sum_spec h c c2 true Hwf Hc Hc2) as (h' & Hrun & Hext & Hent).
  rewrite (result_seq _ _ _ _ Hrun).
  rewrite result_GetAmount in Hnone by done.
  rewrite !result_GetAmount;
    [|done|done|by eapply ext_wf|by apply (ext_valid _ _ _ (Some c) Hext)].
  do 2 f_equal. rewrite (Hent Hne).
  destruct (entry h (Some c2) n k) as [x|] eqn:Hx.
  - destruct (entry h (Some c) n k) as [y|]; [done|].
    cbn [default from_option signed]. f_equal. rewrite Z.add_0_l.
    apply wrap64_id. by eapply entry_int64.
  - by destruct (entry h (Some c) n k).
Qed.

(** X6 at an unset ledger and one with (gpu, fast) = 8. *)
Lemma X6_sum_copies_witness :
  result (Sum (Some 1%positive) (Some 2%positive) true ;;
          GetAmount (Some 1%positive) "gpu" "fast") (seed_heap 8) = Some (true, 8).
Proof.
  apply (X6_sum_copies (seed_heap 8) 1%positive 2%positive "gpu" "fast").
  - apply wf_seed_heap. unfold int64. lia.
  - vm_compute. eauto.
  - vm_compute. eauto.
  - discriminate.
  - reflexivity.
Defined.

(** ** [Clone] and [Sum] together *)

Lemma wrap64_self_cancel x : int64 x → wrap64 (x + wrap64 (-1 * x)) = 0.
Proof.
  intros Hx. rewrite <- (wrap64_id x Hx) at 1.
  replace x with (0 + x) at 1 by lia. apply wrap64_cancel, int64_0.
Qed.

(** X7: a ledger from which its own clone is subtracted has amount 0 for
    every pair, and every pair that was found is still found. *)
Theorem X7_subtract_own_clone h c n k :
  wf h → is_Some (cells h !! c) →
  ∃ b a,
    result (GetAmount (Some c) n k) h = Some (b, a) ∧
    result (p ← Clone (Some c); Sum (Some c) p false ;; GetAmount (Some c) n k) h
      = Some (b, 0).
Proof.
  intros Hwf Hc.
  destruct (Clone_spec h c Hwf Hc) as (p & h1 & Hrun & Hwf1 & Hp & Hp1 & Hval & Hold & Hnew).
  assert (p ≠ c) as Hne.
  { intros ->. rewrite Hp in Hc. by destruct Hc. }
  pose proof (Hval c Hc) as Hc1.
  destruct (Sum_spec h1 c p false Hwf1 Hc1 Hp1) as (h2 & Hrun2 & Hext2 & Hent2).
  exists (found (entry h (Some c) n k)).1, (found (entry h (Some c) n k)).2.
  rewrite (result_bind _ _ _ _ _ Hrun). cbv beta.
  rewrite (result_seq _ _ _ _ Hrun2).
  rewrite !result_GetAmount;
    [|by eapply ext_wf|by apply (ext_valid _ _ _ (Some c) Hext2)|done|done].
  split; [by destruct (found _)|].
  rewrite (Hent2 Hne), Hnew, (Hold c n k Hc).
  destruct (entry h (Some c) n k) as [x|] eqn:Hx; [|done].
  cbn [found fst snd default from_option signed]. unfold id.
  rewrite wrap64_self_cancel; [done|]. exact (entry_int64 _ _ _ _ _ Hwf Hx).
Qed.

(** X7 at a ledger with (gpu, fast) = 5. *)
Lemma X7_subtract_own_clone_witness :
  result (p ← Clone (Some 1%positive);
          Sum (Some 1%positive) p false ;;
          GetAmount (Some 1%positive) "gpu" "fast") (gpu_heap 5) = Some (true, 0).
Proof.
  assert (wf (gpu_heap 5)) as Hwf by (apply wf_gpu_heap; unfold int64; lia).
  destruct (X7_subtract_own_clone (gpu_heap 5) 1%positive "gpu" "fast" Hwf
              ltac:(vm_compute; eauto)) as (b & a & Hbefore & Hafter).
  assert (result (GetAmount (Some 1%positive) "gpu" "fast") (gpu_heap 5) = Some (true, 5))
    as Hget by reflexivity.
  rewrite Hget in Hbefore. injection Hbefore as <- <-. exact Hafter.
Defined.

(** ** [SetMaxContainerQOSResources] composed with itself *)

(** X8: the request lists of init containers can be merged in any order and
    any number of times: two [SetMaxContainerQOSResources] calls commute,
    and a call repeated changes nothing more. *)
Theorem X8_set_max_order h c qrl1 qrl2 n k :
  wf h → is_Some (cells h !! c) →
  result (SetMaxContainerQOSResources (Some c) qrl1 ;;
          SetMaxContainerQOSResources (Some c) qrl2 ;; GetAmount (Some c) n k) h
  = result (SetMaxContainerQOSResources (Some c) qrl2 ;;
            SetMaxContainerQOSResources (Some c) qrl1 ;; GetAmount (Some c) n k) h ∧
  result (SetMaxContainerQOSResources (Some c) qrl1 ;;
          SetMaxContainerQOSResources (Some c) qrl1 ;; GetAmount (Some c) n k) h
  = result (SetMaxContainerQOSResources (Some c) qrl1 ;; GetAmount (Some c) n k) h.
Proof.
  intros Hwf Hc.
  destruct (SetMaxContainerQOSResources_spec h c qrl1 Hwf Hc) as (h1 & Hrun1 & Hext1 & Hent1).
  destruct (SetMaxContainerQOSResources_spec h c qrl2 Hwf Hc) as (h2 & Hrun2 & Hext2 & Hent2).
  pose proof (ext_valid _ _ _ (Some c) Hext1 Hc) as Hc1.
  pose proof (ext_valid _ _ _ (Some c) Hext2 Hc) as Hc2.
  destruct (SetMaxContainerQOSResources_spec h1 c qrl2 (ext_wf _ _ _ Hext1) Hc1)
    as (h12 & Hrun12 & Hext12 & Hent12).
  destruct (SetMaxContainerQOSResources_spec h2 c qrl1 (ext_wf _ _ _ Hext2) Hc2)
    as (h21 & Hrun21 & Hext21 & Hent21).
  destruct (SetMaxContainerQOSResources_spec h1 c qrl1 (ext_wf _ _ _ Hext1) Hc1)
    as (h11 & Hrun11 & Hext11 & Hent11).
  rewrite !(result_seq _ _ _ _ Hrun1), (result_seq _ _ _ _ Hrun2).
  rewrite (result_seq _ _ _ _ Hrun12), (result_seq _ _ _ _ Hrun21),
    (result_seq _ _ _ _ Hrun11).
  rewrite !result_GetAmount;
    [|by eapply ext_wf|done
     |by eapply ext_wf|by apply (ext_valid _ _ _ (Some c) Hext11)
     |by eapply ext_wf|by apply (ext_valid _ _ _ (Some c) Hext21)
     |by eapply ext_wf|by apply (ext_valid _ _ _ (Some c) Hext12)].
  rewrite Hent12, Hent21, Hent11, !Hent1, !Hent2.
  split; repeat case_decide; by rewrite ?floor_one_idemp.
Qed.

(** X8 at a ledger with (gpu, fast) = 0. *)
Lemma X8_set_max_order_witness :
  result (SetMaxContainerQOSResources (Some 1%positive) [Request "gpu" "fast"] ;;
          SetMaxContainerQOSResources (Some 1%positive) [Request "gpu" "fast"] ;;
          GetAmount (Some 1%positive) "gpu" "fast") (gpu_heap 0)
  = result (SetMaxContainerQOSResources (Some 1%positive) [Request "gpu" "fast"] ;;
            GetAmount (Some 1%positive) "gpu" "fast") (gpu_heap 0).
Proof.
  apply (X8_set_max_order (gpu_heap 0) 1%positive
           [Request "gpu" "fast"] [Request "gpu" "slow"] "gpu" "fast").
  - apply wf_gpu_heap, int64_0.
  - vm_compute. eauto.
Defined.

(** ** A request list added through a ledger of its own *)

Lemma wf_new_var_nil h :
  wf h → wf (Heap (<[fresh (dom (cells h)) := None]> (cells h)) (outers h) (inners h)).
Proof.
  intros Hwf. pose proof (fresh_cell h) as Hp. split; cbn [cells outers inners].
  - intros c o. rewrite lookup_insert. case_decide; [done|]. by eapply wf_cell.
  - by eapply wf_outer.
  - intros c1 c2 o. rewrite !lookup_insert. repeat case_decide; try done.
    by eapply wf_cell_own.
  - by eapply wf_outer_own.
  - by eapply wf_amount.
Qed.

(** X9: adding a request list to a ledger at once is the same as collecting
    the list in a new ledger and adding that one with [Sum]: a running
    total can take a pod's container ledger in place of its requests. *)
Theorem X9_add_through_ledger h c qrl n k :
  wf h → is_Some (cells h !! c) →
  result (t ← new_var None;
          AddContainerQOSResources (Some t) qrl ;;
          Sum (Some c) (Some t) true ;;
          GetAmount (Some c) n k) h
  = result (AddContainerQOSResources (Some c) qrl ;; GetAmount (Some c) n k) h.
Proof.
  intros Hwf Hc.
  pose proof (fresh_cell h) as Ht. set (t := fresh (dom (cells h))) in *.
  pose proof (wf_new_var_nil h Hwf) as Hwf1. fold t in Hwf1.
  set (h1 := Heap (<[t := None]> (cells h)) (outers h) (inners h)) in *.
  assert (new_var None h = Some (t, h1)) as Hnew by done.
  assert (t ≠ c) as Hne.
  { intros Heq. rewrite Heq in Ht. rewrite Ht in Hc. by destruct Hc. }
  assert (cells h1 !! t = Some None) as Ht1.
  { unfold h1. cbn [cells]. by rewrite lookup_insert_eq. }
  assert (is_Some (cells h1 !! c)) as Hc1.
  { unfold h1. cbn [cells]. by rewrite lookup_insert_ne. }
  assert (∀ n k, entry h1 (Some c) n k = entry h (Some c) n k) as Hsame.
  { intros n' k'. apply entry_same; [done| |done|by intros j _].
    unfold h1. cbn [cells]. by rewrite lookup_insert_ne. }
  destruct (AddContainerQOSResources_spec h1 t qrl Hwf1 ltac:(eauto))
    as (h2 & Hrun2 & Hext2 & Hent2).
  pose proof (ext_valid _ _ _ (Some c) Hext2 Hc1) as Hc2.
  pose proof (ext_valid _ _ _ (Some t) Hext2 ltac:(simpl; eauto)) as Ht2.
  destruct (Sum_spec h2 c t true (ext_wf _ _ _ Hext2) Hc2 Ht2)
    as (h3 & Hrun3 & Hext3 & Hent3).
  destruct (AddContainerQOSResources_spec h c qrl Hwf Hc) as (h4 & Hrun4 & Hext4 & Hent4).
  rewrite (result_bind _ _ _ _ _ Hnew). cbv beta.
  rewrite (result_seq _ _ _ _ Hrun2), (result_seq _ _ _ _ Hrun3),
    (result_seq _ _ _ _ Hrun4).
  rewrite !result_GetAmount;
    [|by eapply ext_wf|by apply (ext_valid _ _ _ (Some c) Hext4)
     |by eapply ext_wf|by apply (ext_valid _ _ _ (Some c) Hext3)].
  do 2 f_equal.
  rewrite (Hent3 Hne), Hent2, Hent4, (entry_nil _ _ _ _ Ht1).
  rewrite (ext_entry _ _ _ c n k Hext2 (not_eq_sym Hne)), Hsame.
  destruct (occurrences n k (request_pairs qrl)) as [|cnt]; [done|].
  cbn [bump default from_option signed]. unfold id.
  f_equal. rewrite Z.add_0_l. apply wrap64_add_wrap64.
Qed.

(** X9 at a ledger with (gpu, fast) = 5 and two requests for the pair. *)
Lemma X9_add_through_ledger_witness :
  result (t ← new_var None;
          AddContainerQOSResources (Some t) [Request "gpu" "fast"; Request "gpu" "fast"] ;;
          Sum (Some 1%positive) (Some t) true ;;
          GetAmount (Some 1%positive) "gpu" "fast") (gpu_heap 5)
  = result (AddContainerQOSResources (Some 1%positive)
              [Request "gpu" "fast"; Request "gpu" "fast"] ;;
            GetAmount (Some 1%positive) "gpu" "fast") (gpu_heap 5).
Proof.
  apply (X9_add_through_ledger (gpu_heap 5) 1%positive).
  - apply wf_gpu_heap. unfold int64. lia.
  - vm_compute. eauto.
Defined.

(** ** What the constructors leave alone *)




Lemma occurrences_Permutation n k l1 l2 :
  l1 ≡ₚ l2 → occurrences n k l1 = occurrences n k l2.
Proof.
  induction 1 as [|x l1 l2 _ IH|x y l|l1 l2 l3 _ IH1 _ IH2]; simpl.
  - done.
  - by rewrite IH.
  - lia.
  - by rewrite IH1.
Qed.

Lemma pod_results pod h n k :
  wf h →
  result ('(podReqs, containerReqs) ← PodQOSResourceRequests pod;
          x ← GetAmount (Some podReqs) n k;
          y ← GetAmount (Some containerReqs) n k;
          ret (x, y)) h
  = Some (found (bump (occurrences n k (pod_request_pairs (pod_QOSResources pod))) None),
          found (let e := bump (occurrences n k (container_pairs (pod_Containers pod))) None in
                 if decide ((n, k) ∈ container_pairs (pod_InitContainers pod))
                 then floor_one e else e)).
Proof.
  intros Hwf.
  destruct (PodQOSResourceRequests_spec pod h Hwf)
    as (p & q & h' & Hrun & Hwf' & _ & _ & _ & Hp & Hq & Hent).
  rewrite (result_bind _ _ _ _ _ Hrun). cbv beta iota.
  rewrite (result_bind _ _ _ _ _ (GetAmount_entry h' (Some p) n k Hwf' Hp)).
  rewrite (result_bind _ _ _ _ _ (GetAmount_entry h' (Some q) n k Hwf' Hq)).
  destruct (Hent n k) as [-> ->]. reflexivity.
Qed.

(** X11: what [PodQOSResourceRequests] returns depends on the pod-level
    requests and on the requests of the regular containers only up to
    their order and distribution over containers, and on the requests of the
    init containers only through which pairs occur among them. *)
Theorem X11_pod_requests_order pod1 pod2 h n k :
  wf h →
  pod_request_pairs (pod_QOSResources pod1) ≡ₚ pod_request_pairs (pod_QOSResources pod2) →
  container_pairs (pod_Containers pod1) ≡ₚ container_pairs (pod_Containers pod2) →
  (∀ x, x ∈ container_pairs (pod_InitContainers pod1) ↔
        x ∈ container_pairs (pod_InitContainers pod2)) →
  result ('(podReqs, containerReqs) ← PodQOSResourceRequests pod1;
          x ← GetAmount (Some podReqs) n k;
          y ← GetAmount (Some containerReqs) n k;
          ret (x, y)) h
  = result ('(podReqs, containerReqs) ← PodQOSResourceRequests pod2;
            x ← GetAmount (Some podReqs) n k;
            y ← GetAmount (Some containerReqs) n k;
            ret (x, y)) h.
Proof.
  intros Hwf Hpod Hctr Hinit. rewrite !pod_results by done. cbv zeta.
  rewrite (occurrences_Permutation n k _ _ Hpod), (occurrences_Permutation n k _ _ Hctr).
  by rewrite (decide_ext _ _ _ _ (Hinit (n, k))).
Qed.

(** X11 at the sample pod and its reordering. *)
Lemma X11_pod_requests_order_witness :
  result ('(podReqs, containerReqs) ← PodQOSResourceRequests sample_pod;
          x ← GetAmount (Some podReqs) "gpu" "fast";
          y ← GetAmount (Some containerReqs) "gpu" "fast";
          ret (x, y)) empty_heap
  = result ('(podReqs, containerReqs) ← PodQOSResourceRequests sample_pod_reordered;
            x ← GetAmount (Some podReqs) "gpu" "fast";
            y ← GetAmount (Some containerReqs) "gpu" "fast";
            ret (x, y)) empty_heap.
Proof.
  apply (X11_pod_requests_order sample_pod sample_pod_reordered empty_heap "gpu" "fast").
  - exact wf_empty_heap.
  - reflexivity.
  - reflexivity.
  - intros x. unfold container_pairs, request_pairs. simpl.
    rewrite !elem_of_cons. naive_solver.
Defined.

Lemma QOSResourcesTotalFromInfo_frame infos h :
  wf h → Forall int64_info infos →
  ∃ m h', QOSResourcesTotalFromInfo infos h = Some (m, h') ∧ wf h' ∧
    ∀ c, is_Some (cells h !! c) →
      is_Some (cells h' !! c) ∧ ∀ n k, entry h' (Some c) n k = entry h (Some c) n k.
Proof.
  intros Hwf Hint. unfold QOSResourcesTotalFromInfo.
  pose proof (fresh_outer h) as Hfr. set (o := fresh (dom (outers h))) in *.
  pose proof (wf_outer_alloc _ _ Hwf Hfr) as Hwf1.
  set (h1 := Heap (cells h) (<[o := ∅]> (outers h)) (inners h)) in *.
  assert (make_outer h = Some (Some o, h1)) as Hmk by done.
  step Hmk.
  assert (outers h1 !! o = Some ∅) as Hout1.
  { unfold h1. cbn [outers]. by rewrite lookup_insert_eq. }
  destruct (link_loop info_Name
              (λ qr, foldl (λ m cl, <[cls_Name cl := cls_Capacity cl]> m) ∅ (info_Classes qr))
              (λ qr,
                 classes ← make_inner;
                 for_each (info_Classes qr)
                   (λ cl, inner_store classes (cls_Name cl) (cls_Capacity cl)) ;;
                 outer_store (Some o) (info_Name qr) classes)
              o infos h1) with (h := h1) (mo := (∅ : gmap string (option positive)))
    as (h2 & mo2 & Hrun2 & Hwf2 & Hcells2 & Houters2 & Hkeep2 & Hout2 & Hent2).
  { intros qr k a Hin. rewrite fill_lookup, lookup_empty.
    destruct (last_with cls_Name (info_Classes qr) k) as [cl|] eqn:Hl; [|done].
    intros [= <-]. apply last_with_Some in Hl as [Hcl _].
    rewrite Forall_forall in Hint. specialize (Hint qr Hin).
    unfold int64_info in Hint. rewrite Forall_forall in Hint. by apply Hint. }
  { intros qr h' mo' _ _ _ Hout'. by apply info_body_run. }
  { done. }
  { apply keeps_inners_refl. }
  { done. }
  step Hrun2. exists (Some o), h2. split; [done|]. split; [done|].
  intros c Hc. split; [by rewrite Hcells2|].
  intros n k. apply entry_same; [done|by rewrite Hcells2|..].
  - intros o' Ho'. assert (o' ≠ o) as Hne.
    { intros ->. destruct (wf_cell _ Hwf _ _ Ho'). congruence. }
    rewrite (Houters2 o' Hne). unfold h1. cbn [outers]. by rewrite lookup_insert_ne.
  - exact Hkeep2.
Qed.

(** X12: [QOSResourcesTotalFromInfo] returns a map that is not nil and is
    a new object: the store had no map at its address, and no variable of
    the store holds it when the function returns; no [GetAmount] result of
    the ledgers the store had changes. *)
Theorem X12_from_info_frame infos h :
  wf h → Forall int64_info infos →
  ∃ o h', QOSResourcesTotalFromInfo infos h = Some (Some o, h') ∧
    outers h !! o = None ∧ is_Some (outers h' !! o) ∧
    (∀ c, cells h' !! c ≠ Some (Some o)) ∧
    ∀ c n k, is_Some (cells h !! c) →
      result (GetAmount (Some c) n k) h' = result (GetAmount (Some c) n k) h.
Proof.
  intros Hwf Hint.
  destruct (QOSResourcesTotalFromInfo_frame infos h Hwf Hint) as (m & h' & Hrun & Hwf' & Hold).
  destruct (QOSResourcesTotalFromInfo_spec infos h Hwf Hint)
    as (o & h'' & mo & Hrun' & _ & Hcells & Hfresh & Hout & _).
  rewrite Hrun in Hrun'. injection Hrun' as -> <-.
  exists o, h'. split; [done|]. split; [done|]. split; [eauto|]. split.
  - intros c. rewrite Hcells. intros Hc.
    destruct (wf_cell _ Hwf _ _ Hc). congruence.
  - intros c n k Hc. destruct (Hold c Hc) as [Hc' Hent].
    rewrite !result_GetAmount by done. by rewrite Hent.
Qed.

(** X12 at a store with the ledger (gpu, fast) = 5 and a description that
    advertises the same pair. *)
Lemma X12_from_info_frame_witness :
  ∃ o h', QOSResourcesTotalFromInfo [Info "gpu" [ClassInfo "fast" 8]] (gpu_heap 5)
            = Some (Some o, h') ∧
    outers (gpu_heap 5) !! o = None ∧ is_Some (outers h' !! o) ∧
    (∀ c, cells h' !! c ≠ Some (Some o)) ∧
    ∀ c n k, is_Some (cells (gpu_heap 5) !! c) →
      result (GetAmount (Some c) n k) h' = result (GetAmount (Some c) n k) (gpu_heap 5).
Proof.
  apply (X12_from_info_frame [Info "gpu" [ClassInfo "fast" 8]] (gpu_heap 5)).
  - apply wf_gpu_heap. unfold int64. lia.
  - repeat constructor; unfold int64; simpl; lia.
Defined.

(** ** [Sum] of a ledger with itself *)

Lemma add_existing h c o m n i im k a :
  cells h !! c = Some (Some o) → outers h !! o = Some m →
  m !! n = Some (Some i) → inners h !! i = Some im →
  add (Some c) n k a h =
  Some ((), Heap (cells h) (outers h)
              (<[i := <[k := wrap64 (default 0 (im !! k) + a)]> im]> (inners h))).
Proof.
  intros Hc Hm Hn Hi. unfold add.
  assert (add_init_total c h = Some ((), h)) as H1.
  { unfold add_init_total. by step (deref_eq _ _ _ Hc). }
  step H1.
  assert (add_init_resource c n h = Some ((), h)) as H2.
  { unfold add_init_resource. step (deref_eq _ _ _ Hc).
    by step (outer_index_some _ _ _ _ _ Hm Hn). }
  step H2. unfold add_bump.
  step (deref_eq _ _ _ Hc). step (outer_index_some _ _ _ _ _ Hm Hn).
  assert (∃ ok, inner_index (Some i) k h = Some ((default 0 (im !! k), ok), h))
    as [ok Hx].
  { destruct (im !! k) as [x|] eqn:Hk.
    - exists true. by eapply inner_index_some.
    - exists false. by eapply inner_index_none. }
  step Hx. step (deref_eq _ _ _ Hc). step (outer_index_some _ _ _ _ _ Hm Hn).
  by apply inner_store_eq.
Qed.

Lemma self_inner_run (b : bool) n (ies : list (string * Z)) h c o m i im :
  cells h !! c = Some (Some o) → outers h !! o = Some m →
  m !! n = Some (Some i) → inners h !! i = Some im →
  NoDup ies.*1 → (∀ k a, (k, a) ∈ ies → im !! k = Some a) →
  for_each ies (λ '(clsName, clsAmount),
    if b then add (Some c) n clsName clsAmount
    else add (Some c) n clsName (wrap64 (-1 * clsAmount))) h =
  Some ((), Heap (cells h) (outers h)
              (<[i := foldl (λ mm x, <[x.1 := wrap64 (x.2 + signed b x.2)]> mm) im ies]>
                 (inners h))).
Proof.
  revert h im. induction ies as [|[k a] ies IH]; intros h im Hc Hm Hn Hi Hnd Hin.
  { cbn [for_each foldl]. rewrite (insert_id _ _ _ Hi). by destruct h. }
  apply NoDup_cons in Hnd as [Hk Hnd].
  pose proof (Hin k a ltac:(left)) as Hka.
  assert ((if b then add (Some c) n k a else add (Some c) n k (wrap64 (-1 * a))) h
          = Some ((), Heap (cells h) (outers h)
                        (<[i := <[k := wrap64 (a + signed b a)]> im]> (inners h)))) as Hrun.
  { transitivity (add (Some c) n k (signed b a) h); [by destruct b|].
    rewrite (add_existing h c o m n i im k _ Hc Hm Hn Hi). by rewrite Hka. }
  cbn [for_each foldl]. step Hrun.
  erewrite IH; cbn [cells outers inners fst snd]; [|done..| |done|].
  - by rewrite insert_insert_eq.
  - by rewrite lookup_insert_eq.
  - intros k' a' Hin'. rewrite lookup_insert_ne; [apply Hin; by right|].
    intros ->. apply Hk. apply list_elem_of_fmap. by exists (k', a').
Qed.

Lemma self_fill (b : bool) (im : gmap string Z) :
  foldl (λ mm (x : string * Z), <[x.1 := wrap64 (x.2 + signed b x.2)]> mm) im (map_to_list im)
  = (λ a, wrap64 (a + signed b a)) <$> im.
Proof.
  apply map_eq. intros k.
  rewrite (fill_lookup fst (λ x, wrap64 (x.2 + signed b x.2))), lookup_fmap.
  destruct (im !! k) as [a|] eqn:Hk.
  - apply elem_of_map_to_list in Hk.
    pose proof (last_with_NoDup fst _ (k, a) (NoDup_fst_map_to_list im) Hk) as Hl.
    simpl in Hl. by rewrite Hl.
  - rewrite last_with_None; [done|]. intros [[k' a] [-> Hin]]%list_elem_of_fmap.
    apply elem_of_map_to_list in Hin. simpl in Hk. congruence.
Qed.

Lemma entry_inner_replace h c o m n0 i0 im' n k :
  wf h → cells h !! c = Some (Some o) → outers h !! o = Some m →
  m !! n0 = Some (Some i0) →
  entry (Heap (cells h) (outers h) (<[i0 := im']> (inners h))) (Some c) n k =
  if decide (n = n0) then im' !! k else entry h (Some c) n k.
Proof.
  intros Hwf Hc Hm Hn0. case_decide as Hd.
  - subst n. eapply entry_eq; cbn [cells outers inners]; [done..|].
    by rewrite lookup_insert_eq.
  - destruct (m !! n) as [[j|]|] eqn:Hj.
    + destruct (wf_outer _ Hwf _ _ _ _ Hm Hj) as [jm Hjm].
      rewrite (entry_eq h c o m n j jm k Hc Hm Hj Hjm).
      eapply entry_eq; cbn [cells outers inners]; [done..|].
      rewrite lookup_insert_ne; [done|]. intros ->.
      by destruct (wf_outer_own _ Hwf _ _ _ _ _ _ _ Hm Hm Hn0 Hj) as [_ ?].
    + rewrite (entry_absent h c o m n k Hc Hm) by by rewrite Hj.
      eapply entry_absent; cbn [cells outers inners]; [done..|]. by rewrite Hj.
    + rewrite (entry_absent h c o m n k Hc Hm) by by rewrite Hj.
      eapply entry_absent; cbn [cells outers inners]; [done..|]. by rewrite Hj.
Qed.

Lemma self_outer_spec (b : bool) (es : list (string * option positive)) h c o m :
  wf h → cells h !! c = Some (Some o) → outers h !! o = Some m →
  NoDup es.*1 → (∀ n t, (n, t) ∈ es → m !! n = Some t) →
  ∃ h',
    for_each es (λ '(resName, resTotal),
      ies ← inner_range resTotal;
      for_each ies (λ '(clsName, clsAmount),
        if b then add (Some c) resName clsName clsAmount
        else add (Some c) resName clsName (wrap64 (-1 * clsAmount)))) h = Some ((), h') ∧
    wf h' ∧ cells h' = cells h ∧
    ∀ n k, entry h' (Some c) n k =
      match (list_to_map es : gmap string (option positive)) !! n with
      | Some _ => (λ a, wrap64 (a + signed b a)) <$> entry h (Some c) n k
      | None => entry h (Some c) n k
      end.
Proof.
  revert h. induction es as [|[n0 t0] es IH]; intros h Hwf Hc Hm Hnd Hes.
  { exists h. split; [done|]. split; [done|]. split; [done|].
    intros n k. by rewrite list_to_map_nil, lookup_empty. }
  apply NoDup_cons in Hnd as [Hn0 Hnd].
  pose proof (Hes n0 t0 ltac:(left)) as Ht0.
  assert (∃ h1,
    (ies ← inner_range t0;
     for_each ies (λ '(clsName, clsAmount),
       if b then add (Some c) n0 clsName clsAmount
       else add (Some c) n0 clsName (wrap64 (-1 * clsAmount)))) h = Some ((), h1) ∧
    wf h1 ∧ cells h1 = cells h ∧ outers h1 = outers h ∧
    ∀ n k, entry h1 (Some c) n k =
      if decide (n = n0) then (λ a, wrap64 (a + signed b a)) <$> entry h (Some c) n k
      else entry h (Some c) n k) as (h1 & Hbody & Hwf1 & Hcells1 & Houters1 & Hent1).
  { destruct t0 as [i0|].
    - destruct (wf_outer _ Hwf _ _ _ _ Hm Ht0) as [im0 Hi0].
      eexists. split.
      { step (inner_range_eq _ _ _ Hi0).
        rewrite (self_inner_run b n0 (map_to_list im0) h c o m i0 im0 Hc Hm Ht0 Hi0
                   (NoDup_fst_map_to_list _)
                   ltac:(by intros ?? ?%elem_of_map_to_list)).
        by rewrite self_fill. }
      split.
      { apply wf_inner_set; [done|]. intros k a. rewrite lookup_fmap.
        destruct (im0 !! k); [|done]. intros [= <-]. apply wrap64_int64. }
      split; [done|]. split; [done|].
      intros n k. rewrite (entry_inner_replace h c o m n0 i0 _ n k Hwf Hc Hm Ht0).
      case_decide; [|done]. subst n.
      by rewrite lookup_fmap, (entry_eq h c o m n0 i0 im0 k Hc Hm Ht0 Hi0).
    - exists h. split; [done|]. split; [done|]. split; [done|]. split; [done|].
      intros n k. case_decide; [|done]. subst n.
      by rewrite (entry_absent h c o m n0 k Hc Hm) by by rewrite Ht0. }
  destruct (IH h1 Hwf1 ltac:(by rewrite Hcells1) ltac:(by rewrite Houters1) Hnd
              ltac:(intros ???; apply Hes; by right))
    as (h2 & Hrun2 & Hwf2 & Hcells2 & Hent2).
  cbn [for_each]. cbv beta iota. step Hbody.
  exists h2. split; [done|]. split; [done|]. split; [by rewrite Hcells2|].
  intros n k. rewrite Hent2, !Hent1, list_to_map_cons.
  destruct (decide (n = n0)) as [->|Hne].
  - by rewrite (not_elem_of_list_to_map_1 _ _ Hn0), lookup_insert_eq.
  - by rewrite lookup_insert_ne.
Qed.

Lemma Sum_self_spec h c (b : bool) :
  wf h → is_Some (cells h !! c) →
  ∃ h', Sum (Some c) (Some c) b h = Some ((), h') ∧ wf h' ∧ is_Some (cells h' !! c) ∧
    ∀ n k, entry h' (Some c) n k = (λ a, wrap64 (a + signed b a)) <$> entry h (Some c) n k.
Proof.
  intros Hwf [v Hc]. unfold Sum. step (deref_eq _ _ _ Hc).
  destruct v as [o|].
  2:{ exists h. split; [done|]. split; [done|]. split; [eauto|].
      intros n k. by rewrite (entry_nil _ _ _ _ Hc). }
  destruct (wf_cell _ Hwf _ _ Hc) as [m Hm].
  step (outer_range_eq _ _ _ Hm).
  destruct (self_outer_spec b (map_to_list m) h c o m Hwf Hc Hm (NoDup_fst_map_to_list _)
              ltac:(by intros ?? ?%elem_of_map_to_list))
    as (h' & Hrun & Hwf' & Hcells & Hent).
  exists h'. split; [done|]. split; [done|]. split; [rewrite Hcells; eauto|].
  intros n k. rewrite Hent, list_to_map_to_list.
  destruct (m !! n) eqn:Hn; [done|].
  by rewrite (entry_absent h c o m n k Hc Hm) by by rewrite Hn.
Qed.

(** X13: a ledger added to itself doubles every amount (wrapped to
    [int64]), and a ledger subtracted from itself has amount 0 for every
    pair; in both cases the pairs that were found, and no others, are
    found afterwards. *)
Theorem X13_sum_self h c n k :
  wf h → is_Some (cells h !! c) →
  ∃ b a,
    result (GetAmount (Some c) n k) h = Some (b, a) ∧
    result (Sum (Some c) (Some c) true ;; GetAmount (Some c) n k) h
      = Some (b, wrap64 (a + a)) ∧
    result (Sum (Some c) (Some c) false ;; GetAmount (Some c) n k) h = Some (b, 0).
Proof.
  intros Hwf Hc.
  destruct (Sum_self_spec h c true Hwf Hc) as (h1 & Hrun1 & Hwf1 & Hc1 & Hent1).
  destruct (Sum_self_spec h c false Hwf Hc) as (h2 & Hrun2 & Hwf2 & Hc2 & Hent2).
  exists (found (entry h (Some c) n k)).1, (found (entry h (Some c) n k)).2.
  rewrite (result_seq _ _ _ _ Hrun1), (result_seq _ _ _ _ Hrun2).
  rewrite !result_GetAmount by done. rewrite Hent1, Hent2.
  split; [by destruct (found _)|].
  destruct (entry h (Some c) n k) as [x|] eqn:Hx; [|done].
  cbn [fmap option_fmap option_map found fst snd signed]. split; [done|].
  rewrite wrap64_self_cancel; [done|]. exact (entry_int64 _ _ _ _ _ Hwf Hx).
Qed.

(** X13 at a ledger with (gpu, fast) = 5. *)
Lemma X13_sum_self_witness :
  result (Sum (Some 1%positive) (Some 1%positive) true ;;
          GetAmount (Some 1%positive) "gpu" "fast") (gpu_heap 5) = Some (true, 10) ∧
  result (Sum (Some 1%positive) (Some 1%positive) false ;;
          GetAmount (Some 1%positive) "gpu" "fast") (gpu_heap 5) = Some (true, 0).
Proof.
  assert (wf (gpu_heap 5)) as Hwf by (apply wf_gpu_heap; unfold int64; lia).
  destruct (X13_sum_self (gpu_heap 5) 1%positive "gpu" "fast" Hwf
              ltac:(vm_compute; eauto)) as (b & a & Hbefore & Hadd & Hsub).
  assert (result (GetAmount (Some 1%positive) "gpu" "fast") (gpu_heap 5) = Some (true, 5))
    as Hget by reflexivity.
  rewrite Hget in Hbefore. injection Hbefore as <- <-.
  exact (conj Hadd Hsub).
Defined.

(** ** The order of the two merges *)

(** X14: the merge of init-container requests has to come after the sum of
    the regular containers, as in [PodQOSResourceRequests]: for a pair the
    ledger does not hold, that regular containers request [cnt] times and
    an init container requests too, summing first gives the amount [cnt],
    merging first gives [cnt + 1]. *)
Theorem X14_init_merge_order h c qreg qinit n k :
  wf h → is_Some (cells h !! c) →
  result (GetAmount (Some c) n k) h = Some (false, 0) →
  (n, k) ∈ request_pairs qinit →
  (0 < occurrences n k (request_pairs qreg))%nat →
  Z.of_nat (occurrences n k (request_pairs qreg)) + 1 < 2 ^ 63 →
  result (AddContainerQOSResources (Some c) qreg ;;
          SetMaxContainerQOSResources (Some c) qinit ;;
          GetAmount (Some c) n k) h
    = Some (true, Z.of_nat (occurrences n k (request_pairs qreg))) ∧
  result (SetMaxContainerQOSResources (Some c) qinit ;;
          AddContainerQOSResources (Some c) qreg ;;
          GetAmount (Some c) n k) h
    = Some (true, Z.of_nat (occurrences n k (request_pairs qreg)) + 1).
Proof.
  intros Hwf Hc Hnone Hin Hpos Hsmall.
  rewrite result_GetAmount in Hnone by done.
  assert (entry h (Some c) n k = None) as He.
  { destruct (entry h (Some c) n k); [done|done]. }
  destruct (AddContainerQOSResources_spec h c qreg Hwf Hc) as (h1 & Hrun1 & Hext1 & Hent1).
  pose proof (ext_valid _ _ _ (Some c) Hext1 Hc) as Hc1.
  destruct (SetMaxContainerQOSResources_spec h1 c qinit (ext_wf _ _ _ Hext1) Hc1)
    as (h2 & Hrun2 & Hext2 & Hent2).
  destruct (SetMaxContainerQOSResources_spec h c qinit Hwf Hc) as (h3 & Hrun3 & Hext3 & Hent3).
  pose proof (ext_valid _ _ _ (Some c) Hext3 Hc) as Hc3.
  destruct (AddContainerQOSResources_spec h3 c qreg (ext_wf _ _ _ Hext3) Hc3)
    as (h4 & Hrun4 & Hext4 & Hent4).
  rewrite (result_seq _ _ _ _ Hrun1), (result_seq _ _ _ _ Hrun2).
  rewrite (result_seq _ _ _ _ Hrun3), (result_seq _ _ _ _ Hrun4).
  rewrite !result_GetAmount;
    [|by eapply ext_wf|by apply (ext_valid _ _ _ (Some c) Hext4)
     |by eapply ext_wf|by apply (ext_valid _ _ _ (Some c) Hext2)].
  rewrite Hent2, Hent1, Hent4, Hent3, He, !decide_True by done.
  destruct (occurrences n k (request_pairs qreg)) as [|cnt] eqn:Hcnt; [lia|].
  cbn [bump floor_one default from_option found]. unfold id. split.
  - rewrite Z.add_0_l, wrap64_id by (unfold int64; lia).
    by destruct (Z.of_nat (S cnt) =? 0) eqn:E; [apply Z.eqb_eq in E; lia|].
  - rewrite wrap64_id by (unfold int64; lia). do 2 f_equal. lia.
Qed.

(** X14 at an unset ledger, with three regular requests for (gpu, fast). *)
Lemma X14_init_merge_order_witness :
  result (AddContainerQOSResources (Some 1%positive)
            [Request "gpu" "fast"; Request "gpu" "fast"; Request "gpu" "fast"] ;;
          SetMaxContainerQOSResources (Some 1%positive) [Request "gpu" "fast"] ;;
          GetAmount (Some 1%positive) "gpu" "fast") unset_heap = Some (true, 3) ∧
  result (SetMaxContainerQOSResources (Some 1%positive) [Request "gpu" "fast"] ;;
          AddContainerQOSResources (Some 1%positive)
            [Request "gpu" "fast"; Request "gpu" "fast"; Request "gpu" "fast"] ;;
          GetAmount (Some 1%positive) "gpu" "fast") unset_heap = Some (true, 4).
Proof.
  apply (X14_init_merge_order unset_heap 1%positive
           [Request "gpu" "fast"; Request "gpu" "fast"; Request "gpu" "fast"]
           [Request "gpu" "fast"] "gpu" "fast").
  - exact wf_unset_heap.
  - vm_compute. eauto.
  - reflexivity.
  - left.
  - vm_compute. lia.
  - vm_compute. reflexivity.
Defined.
